(** * chunkflow: the inference executor and the SQS task queue

    A shallow embedding of [chunkflow/executor.py] (class [Executor]) and
    of [chunkflow/lib/aws/sqs_queue.py] (class [SQSQueue]), with the
    properties of the pipeline stated and proved over it.

    Conventions of the embedding:
    - a numpy array is a nested list in the index order the code uses
      (the executor works in z,y,x and c,z,y,x order); numpy arrays are
      rectangular, so the length of the first element of an axis is the
      extent of the next axis (an axis below an empty axis is read as
      empty);
    - a Python exception is a value of [exn]; a computation that may raise
      returns [result];
    - the calls to collaborators outside the file (CloudVolume, Storage,
      the inference engine, np.loadtxt, boto3) are answered by a record of
      oracles and leave an [event] in the trace of the invocation;
    - clock readings and [print] are not part of the model: the run log is
      the list of its keys in insertion order. *)

From Stdlib Require Import ZArith List Lia Bool.
From stdpp Require Import base numbers list strings sorting.

Open Scope Z_scope.

(** ** Python exceptions and results *)

Inductive exn : Type :=
  | StopIteration
  | RecursionError
  | AssertionError
  | ValueError
  | IndexError
  | TypeError
  | PyException (msg : string)
  | ExternalError (who : string).

Inductive result (A : Type) : Type :=
  | Ok (a : A)
  | Raise (e : exn).
Arguments Ok {A} a.
Arguments Raise {A} e.

Definition rbind {A B : Type} (r : result A) (k : A -> result B) : result B :=
  match r with
  | Ok a => k a
  | Raise e => Raise e
  end.

(** ** The SQS queue: [SQSQueue.__next__] *)

Module SQS.

(** One entry of [resp['Messages']]. *)
Record message : Type := {
  ReceiptHandle : string;
  Body : string;
  MD5OfBody : string
}.

(** What the iterator does to the outside: a long poll of the queue or
    a [sleep] of the given number of seconds. *)
Inductive action : Type :=
  | Receive
  | Sleep (seconds : Z).

Section Queue.

(** [hashlib.md5(body.encode('utf-8')).hexdigest()]. *)
Variable md5_hexdigest : string -> string.

(** [self.wait_if_empty]; [None] and [0] are both falsy. *)
Variable wait_if_empty : option Z.

(** The answer of the [n]-th call of [_receive_message]: [None] when
    the response holds no ['Messages'] key, else its first message. *)
Variable receive_message : nat -> option message.

Definition truthy (w : option Z) : bool :=
  match w with
  | None => false
  | Some n => negb (n =? 0)
  end.

Definition wait_seconds : Z := default 0 wait_if_empty.

(** [__next__] calls itself after every empty poll.  [depth] is the
    number of nested frames the interpreter still grants (the
    recursion limit); [n] counts the polls made so far.  The result is
    the list of actions performed and what the call returned or
    raised. *)
Fixpoint next_from (depth : nat) (n : nat)
  : list action * result (string * string) :=
  match depth with
  | O => ([], Raise RecursionError)
  | S depth' =>
      match receive_message n with
      | None =>
          if truthy wait_if_empty then
            if wait_seconds <? 0 then
              (* time.sleep refuses a negative length *)
              ([Receive], Raise ValueError)
            else
              let '(acts, r) := next_from depth' (S n) in
              (Receive :: Sleep wait_seconds :: acts, r)
          else ([Receive], Raise StopIteration)
      | Some m =>
          if String.eqb (MD5OfBody m) (md5_hexdigest (Body m))
          then ([Receive], Ok (ReceiptHandle m, Body m))
          else ([Receive], Raise AssertionError)
      end
  end.

Definition __next__ (depth : nat) : list action * result (string * string) :=
  next_from depth 0.

(** Seconds spent in [sleep]. *)
Fixpoint total_wait (acts : list action) : Z :=
  match acts with
  | [] => 0
  | Receive :: acts' => total_wait acts'
  | Sleep s :: acts' => s + total_wait acts'
  end.

Definition persistently_empty : Prop := forall n, receive_message n = None.

End Queue.

(** *** [send_message_list] *)

(** One entry of a batch: [{'Id': message, 'MessageBody': message}]. *)
Record entry : Type := {
  Id : string;
  MessageBody : string
}.

Definition entry_of (message : string) : entry :=
  {| Id := message; MessageBody := message |}.

Section Sender.

(** Whether the response to the [n]-th call of [send_message_batch]
    (counted from zero) holds the key ['Failed']. *)
Variable batch_failed : nat -> list entry -> bool.

(** The loop over the messages.  [sent] counts the batches sent so far
    and [task_entries] is the batch under construction; a batch is sent
    when it has ten entries and is cleared once the send was accepted.
    The result is the list of the batches handed to the queue, and the
    entries left over or the failed assertion of [_send_entry_list]. *)
Fixpoint send_loop (sent : nat) (message_list : list string)
    (task_entries : list entry) : list (list entry) * result (list entry) :=
  match message_list with
  | [] => ([], Ok task_entries)
  | message :: rest =>
      let task_entries := task_entries ++ [entry_of message] in
      if (length task_entries =? 10)%nat then
        if batch_failed sent task_entries then
          ([task_entries], Raise AssertionError)
        else
          let '(batches, r) := send_loop (S sent) rest [] in
          (task_entries :: batches, r)
      else send_loop sent rest task_entries
  end.

Definition send_message_list (message_list : list string)
  : list (list entry) * result unit :=
  let '(batches, r) := send_loop 0 message_list [] in
  match r with
  | Raise e => (batches, Raise e)
  | Ok [] => (batches, Ok tt)
  | Ok task_entries =>
      (* send the remaining tasks, less than ten *)
      if batch_failed (length batches) task_entries
      then (batches ++ [task_entries], Raise AssertionError)
      else (batches ++ [task_entries], Ok tt)
  end.

End Sender.

End SQS.

(** ** numpy arrays as nested lists *)

Module Np.

Abbreviation arr3 A := (list (list (list A))).
Abbreviation arr4 A := (list (list (list (list A)))).

(** Python's normalisation of one bound of a slice over an axis of
    extent [n]: a negative bound counts from the end, and the bound is
    then clipped to [0, n]. *)
Definition slice_bound (n : nat) (i : Z) : nat :=
  if i <? 0 then Z.to_nat (Z.max (i + Z.of_nat n) 0)
  else Nat.min (Z.to_nat i) n.

(** [l[start:stop]] (step 1). *)
Definition py_slice {A : Type} (start stop : Z) (l : list A) : list A :=
  let a := slice_bound (length l) start in
  let b := slice_bound (length l) stop in
  take (b - a)%nat (drop a l).

(** An integer index into an axis of extent [n]: a negative index
    counts from the end, an index outside [-n, n) raises IndexError. *)
Definition py_index (n : nat) (i : Z) : result nat :=
  if (0 <=? i) && (i <? Z.of_nat n) then Ok (Z.to_nat i)
  else if (- Z.of_nat n <=? i) && (i <? 0) then Ok (Z.to_nat (i + Z.of_nat n))
  else Raise IndexError.

(** Extents of the axes, read off the first elements. *)
Definition dim0 {A : Type} (a : list A) : nat := length a.
Definition dim1 {A : Type} (a : list (list A)) : nat := length (hd [] a).
Definition dim2 {A : Type} (a : arr3 A) : nat := length (hd [] (hd [] a)).
Definition shape3 {A : Type} (a : arr3 A) : nat * nat * nat :=
  (dim0 a, dim1 a, dim2 a).

(** The array is rectangular with the given extents. *)
Definition has_shape3 {A : Type} (d h w : nat) (a : arr3 A) : Prop :=
  length a = d /\
  Forall (fun plane => length plane = h /\
                       Forall (fun row => length row = w) plane) a.

Definition has_shape4 {A : Type} (c d h w : nat) (a : arr4 A) : Prop :=
  length a = c /\ Forall (has_shape3 d h w) a.

(** Element access, [None] outside the array. *)
Definition get3 {A : Type} (a : arr3 A) (z y x : nat) : option A :=
  plane ← a !! z; row ← plane !! y; row !! x.

Definition get4 {A : Type} (a : arr4 A) (c z y x : nat) : option A :=
  ch ← a !! c; get3 ch z y x.

Definition all3 {A : Type} (p : A -> bool) (a : arr3 A) : bool :=
  forallb (forallb (forallb p)) a.

Definition any3 {A : Type} (p : A -> bool) (a : arr3 A) : bool :=
  existsb (existsb (existsb p)) a.

Definition map3 {A B : Type} (f : A -> B) (a : arr3 A) : arr3 B :=
  map (map (map f)) a.

(** [np.zeros(shape)] for a three-axis shape. *)
Definition zeros3 {A : Type} (zero : A) (d h w : nat) : arr3 A :=
  replicate d (replicate h (replicate w zero)).

(** Number of elements. *)
Definition size3 {A : Type} (a : arr3 A) : nat :=
  length (concat (concat a)).

(** [np.squeeze(a, axis=0)]: the axis must have extent one. *)
Definition squeeze0 {A : Type} (a : list A) : result A :=
  match a with
  | [x] => Ok x
  | _ => Raise ValueError
  end.

(** Truth value of an array, as [if a:] computes it: the truth of the
    only element of a one-element array, ValueError for an array with
    more than one element (an empty array is false). *)
Definition truth_value {A : Type} (nonzero : A -> bool) (a : arr3 A) : result bool :=
  match concat (concat a) with
  | [] => Ok false
  | [x] => Ok (nonzero x)
  | _ => Raise ValueError
  end.


(** [np.transpose] of a three-axis array: the axes are reversed. *)
Definition transpose3 {A : Type} (dflt : A) (a : arr3 A) : arr3 A :=
  map (fun x =>
    map (fun y =>
      map (fun z => default dflt (get3 a z y x)) (seq 0 (dim0 a)))
      (seq 0 (dim1 a)))
    (seq 0 (dim2 a)).

(** [np.squeeze(a, axis=3)] of an x,y,z,c array whose last axis has
    extent one, and the extent of that axis. *)
Definition dim3 {A : Type} (a : arr3 (list A)) : nat :=
  length (hd [] (hd [] (hd [] a))).
Definition squeeze3 {A : Type} (dflt : A) (a : arr3 (list A)) : arr3 A :=
  map3 (hd dflt) a.

(** [np.transpose] of a four-axis array: the axes are reversed, so a
    c,z,y,x array becomes an x,y,z,c array. *)
Definition transpose4 {A : Type} (a : arr4 A) : arr4 A :=
  map (fun x =>
    map (fun y =>
      map (fun z =>
        omap (fun c => get4 a c z y x) (seq 0 (dim0 a)))
        (seq 0 (dim1 a)))
      (seq 0 (dim2 a)))
    (seq 0 (dim3 a)).

(** Number of indices [i, i+f, i+2f, ...] below [n]: the extent of
    [a[i::f]] over an axis of extent [n] (for [f > 0]). *)
Definition strided_extent (n i f : nat) : nat :=
  if (n <=? i)%nat then 0%nat else ((n - i + f - 1) / f)%nat.

(** Broadcasting of a value axis onto a target axis in an assignment:
    the extents agree or the value has extent one. *)
Definition broadcasts (value target : nat) : bool :=
  (value =? target)%nat || (value =? 1)%nat.

(** Index into the value along a broadcast axis. *)
Definition bidx (value_extent k : nat) : nat :=
  if (value_extent =? 1)%nat then 0%nat else k.

(** [row[j::f] = vrow] once the shapes are known to broadcast. *)
Definition assign_strided_row {A : Type} (j f : nat) (vrow : list A) (row : list A)
  : list A :=
  imap (fun x old =>
          if (j <=? x)%nat && ((x - j) mod f =? 0)%nat
          then default old (vrow !! bidx (length vrow) ((x - j) / f))
          else old) row.

(** [mask[:, i::f, j::f] = value] for three-axis arrays; ValueError when
    the value does not broadcast to the shape of the strided view. *)
Definition assign_strided {A : Type} (i j f : nat) (value : arr3 A) (mask : arr3 A)
  : result (arr3 A) :=
  let '(d, h, w) := shape3 mask in
  let '(vd, vh, vw) := shape3 value in
  if broadcasts vd d && broadcasts vh (strided_extent h i f)
     && broadcasts vw (strided_extent w j f)
  then
    Ok (imap (fun z plane =>
          let vplane := default [] (value !! bidx vd z) in
          imap (fun y row =>
                  if (i <=? y)%nat && ((y - i) mod f =? 0)%nat
                  then assign_strided_row j f
                         (default [] (vplane !! bidx vh ((y - i) / f))) row
                  else row) plane) mask)
  else Raise ValueError.

(** [np.ndindex((f, f))]: row-major pairs. *)
Definition ndindex2 (f : nat) : list (nat * nat) :=
  i ← seq 0 f; j ← seq 0 f; [(i, j)].

(** The loop that replicates the coarse mask into [f] by [f] blocks. *)
Fixpoint upsample_loop {A : Type} (offsets : list (nat * nat)) (f : nat)
    (value : arr3 A) (mask : arr3 A) : result (arr3 A) :=
  match offsets with
  | [] => Ok mask
  | (i, j) :: rest =>
      rbind (assign_strided i j f value mask) (upsample_loop rest f value)
  end.

(** Elementwise [op] of two arrays of one shape. *)
Definition zip3 {A B C : Type} (op : A -> B -> C) (a : arr3 A) (b : arr3 B) : arr3 C :=
  zip_with (zip_with (zip_with op)) a b.

End Np.

(** ** The executor *)

Module Executor.
Import Np.

(** A Python [slice(start, stop)]. *)
Definition slice : Type := (Z * Z)%type.

(** The output bounding box, as its [to_slices()] in z,y,x order. *)
Definition bbox : Type := (slice * slice * slice)%type.

(** [slices[::-1]]: the slices in the x,y,z order of the store. *)
Definition reversed (b : bbox) : list slice :=
  let '(sz, sy, sx) := b in [sx; sy; sz].

(** Modelled from the spec: the class [OffsetArray] of
    [chunkflow/offset_array.py] is outside the modelled files; the
    data model describes it as a dense array plus the global coordinate
    of its element [0,0,0], with [global_offset + shape] the end of its
    global bounding box. *)
Record OffsetArray : Type := {
  data : arr3 Z;
  global_offset : Z * Z * Z
}.

(** Modelled from the spec: [OffsetArray.slices], the global bounding
    box of the array as slices, [global_offset] to
    [global_offset + shape] on every axis. *)
Definition slices (a : OffsetArray) : slice * slice * slice :=
  let '(oz, oy, ox) := global_offset a in
  ((oz, oz + Z.of_nat (dim0 (data a))),
   (oy, oy + Z.of_nat (dim1 (data a))),
   (ox, ox + Z.of_nat (dim2 (data a)))).

(** The arguments of [Executor.__init__] that the pipeline reads.  The
    model, patch and channel arguments only reach the inference engine,
    which is an oracle here.  Mip levels are natural numbers; the
    embedding covers [mip <= output_mask_mip] and, when a validation mip
    is given, [mip <= image_validate_mip], where Python's [2 ** k] is an
    integer. *)
Record Config : Type := {
  image_layer_path : string;
  output_layer_path : string;
  output_mask_layer_path : option string;
  cropping_margin_size : Z * Z * Z;
  mip : nat;
  output_mask_mip : nat;
  framework : string;
  missing_section_ids_file_name : option string;
  image_validate_mip : option nat
}.

(** Truth value of an optional string: [None] and the empty string are
    false. *)
Definition str_truthy (s : option string) : bool :=
  match s with
  | None => false
  | Some s => negb (String.eqb s "")
  end.

(** [os.path.join(a, b)] on a POSIX system. *)
Definition slash : Stdlib.Strings.Ascii.ascii :=
  Eval cbv in Stdlib.Strings.Ascii.ascii_of_nat 47.

Fixpoint ends_with_slash (a : string) : bool :=
  match a with
  | EmptyString => false
  | String c EmptyString => Stdlib.Strings.Ascii.eqb c slash
  | String _ rest => ends_with_slash rest
  end.
Definition os_path_join (a b : string) : string :=
  match b with
  | String c _ =>
      if Stdlib.Strings.Ascii.eqb c slash then b
      else if String.eqb a "" || ends_with_slash a then (a ++ b)%string
      else (a ++ "/" ++ b)%string
  | EmptyString =>
      if String.eqb a "" || ends_with_slash a then a else (a ++ "/")%string
  end.

Section Pipeline.

(** Values of the output volume (float32 in the deployed pipeline),
    their truth value and their product with a mask element. *)
Variable val : Type.
Variable val_nonzero : val -> bool.
Variable val_mul : val -> Z -> val.

(** What an invocation does to the outside. *)
Inductive event : Type :=
  | EvReadVolume (path : string) (at_mip : nat) (xyz : list slice)
  | EvLoadTxt (file : string)
  | EvDownsample (factor : Z * Z * Z)
  | EvTemplateMatching (xyz_image : arr3 Z)
  | EvInference
  | EvWriteVolume (path : string) (at_mip : nat) (xyz : list slice)
                  (xyzc : arr4 val)
  | EvThumbnail (path : string)
  | EvPutFile (log_path file_path : string) (keys : list string).

(** The answers of the collaborators during one invocation. *)
Record World : Type := {
  (* np.transpose(vol[...]) of the mask volume: a c,z,y,x array *)
  cutout_mask : list slice -> result (arr4 Z);
  (* np.transpose(image_vol[...]): a c,z,y,x array *)
  cutout_image : list slice -> result (arr4 Z);
  (* image_vol.voxel_offset, in x,y,z order *)
  voxel_offset : Z * Z * Z;
  (* image_vol.bbox_to_mip(bbox, mip, to_mip), on x,y,z slices *)
  bbox_to_mip : list slice -> nat -> nat -> list slice;
  (* OffsetArray.cutout on global z,y,x slices *)
  offset_cutout : OffsetArray -> list slice -> result (arr3 Z);
  (* igneous' downsample_with_averaging *)
  downsample_with_averaging : arr3 Z -> Z * Z * Z -> arr3 Z;
  (* chunkflow.validate.validate_by_template_matching *)
  validate_by_template_matching : arr3 Z -> bool;
  (* validate_vol[...]: an x,y,z,c array *)
  cutout_validate : list slice -> result (arr3 (list Z));
  (* np.alltrue(a == b) *)
  np_alltrue_eq : arr3 Z -> arr3 Z -> bool;
  (* the ids that np.loadtxt(file, dtype='int64') reads from a file
     holding one column or one row of ids, in the order of the file *)
  loadtxt : string -> result (list Z);
  (* the block inference engine on the input chunk *)
  block_inference : string -> OffsetArray -> result (arr4 val);
  (* the store write of the output (vol[...] = self.output), of the
     thumbnail and of the log file *)
  write_volume : result unit;
  downsample_and_upload : result unit;
  put_file : string -> string -> result unit;
  (* Bbox.to_filename *)
  to_filename : bbox -> string
}.

(** The fields of [self] that the stages assign.  A field holds its
    initial value until the stage that assigns it has run; no stage
    reads a field before that. *)
Record Self : Type := {
  output_bbox : bbox;
  log : list string;
  output_mask : option (arr3 Z);
  xyfactor : nat;
  output_mask_slices : bbox;
  input_slices : bbox;
  image : OffsetArray;
  output : arr4 val
}.

Record St : Type := {
  self : Self;
  trace : list event
}.

(** Stages run in a state and exception monad: a raised exception
    keeps the state reached (and the trace of what was done). *)
Definition M (A : Type) : Type := St -> result A * St.

#[export] Instance M_ret : MRet M := fun A a st => (Ok a, st).
#[export] Instance M_bind : MBind M := fun A B k m st =>
  match m st with
  | (Ok a, st') => k a st'
  | (Raise e, st') => (Raise e, st')
  end.

Definition raise {A : Type} (e : exn) : M A := fun st => (Raise e, st).
Definition get_self : M Self := fun st => (Ok (self st), st).
Definition emit (ev : event) : M unit :=
  fun st => (Ok tt, {| self := self st; trace := trace st ++ [ev] |}).
Definition lift {A : Type} (r : result A) : M A := fun st => (r, st).
Definition assert (b : bool) : M unit :=
  if b then mret tt else raise AssertionError.

(** Assignments to the fields of [self]. *)
Definition with_bbox (b : bbox) (s : Self) : Self :=
  {| output_bbox := b; log := log s; output_mask := output_mask s;
     xyfactor := xyfactor s; output_mask_slices := output_mask_slices s;
     input_slices := input_slices s; image := image s; output := output s |}.
Definition with_log (l : list string) (s : Self) : Self :=
  {| output_bbox := output_bbox s; log := l; output_mask := output_mask s;
     xyfactor := xyfactor s; output_mask_slices := output_mask_slices s;
     input_slices := input_slices s; image := image s; output := output s |}.
Definition with_mask (m : option (arr3 Z)) (s : Self) : Self :=
  {| output_bbox := output_bbox s; log := log s; output_mask := m;
     xyfactor := xyfactor s; output_mask_slices := output_mask_slices s;
     input_slices := input_slices s; image := image s; output := output s |}.
Definition with_mask_geometry (f : nat) (sl : bbox) (s : Self) : Self :=
  {| output_bbox := output_bbox s; log := log s; output_mask := output_mask s;
     xyfactor := f; output_mask_slices := sl;
     input_slices := input_slices s; image := image s; output := output s |}.
Definition with_input_slices (sl : bbox) (s : Self) : Self :=
  {| output_bbox := output_bbox s; log := log s; output_mask := output_mask s;
     xyfactor := xyfactor s; output_mask_slices := output_mask_slices s;
     input_slices := sl; image := image s; output := output s |}.
Definition with_image (a : OffsetArray) (s : Self) : Self :=
  {| output_bbox := output_bbox s; log := log s; output_mask := output_mask s;
     xyfactor := xyfactor s; output_mask_slices := output_mask_slices s;
     input_slices := input_slices s; image := a; output := output s |}.
Definition with_output (o : arr4 val) (s : Self) : Self :=
  {| output_bbox := output_bbox s; log := log s; output_mask := output_mask s;
     xyfactor := xyfactor s; output_mask_slices := output_mask_slices s;
     input_slices := input_slices s; image := image s; output := o |}.

Definition modify (f : Self -> Self) : M unit :=
  fun st => (Ok tt, {| self := f (self st); trace := trace st |}).

(** [self.log[key] = elapsed]: a key already present keeps its place. *)
Definition log_key (key : string) : M unit :=
  modify (fun s =>
    with_log (if bool_decide (key ∈ log s) then log s else log s ++ [key]) s).

Variable cfg : Config.
Variable w : World.

(** *** [_read_output_mask] *)

Definition floordiv_slice (f : Z) (a : slice) : slice :=
  (fst a / f, snd a / f).

Definition _read_output_mask : M unit :=
  if negb (str_truthy (output_mask_layer_path cfg)) then
    modify (with_mask None)
  else
    s ← get_self;
    let f := (2 ^ (output_mask_mip cfg - mip cfg))%nat in
    let '(sz, sy, sx) := output_bbox s in
    (* the indices are scaled in the XY plane only *)
    let mask_slices :=
      (sz, floordiv_slice (Z.of_nat f) sy, floordiv_slice (Z.of_nat f) sx) in
    modify (with_mask_geometry f mask_slices);;
    emit (EvReadVolume (default "" (output_mask_layer_path cfg))
                       (output_mask_mip cfg) (reversed mask_slices));;
    czyx ← lift (cutout_mask w (reversed mask_slices));
    m ← lift (squeeze0 czyx);
    modify (with_mask (Some m)).

(** *** [_read_image] *)

Definition expand (s : slice) (m : Z) : slice := (fst s - m, snd s + m).

Definition _read_image : M unit :=
  s ← get_self;
  let '(sz, sy, sx) := output_bbox s in
  let '(m0, m1, m2) := cropping_margin_size cfg in
  let input := (expand sz m0, expand sy m1, expand sx m2) in
  modify (with_input_slices input);;
  (* the indexes are reversed: the store uses x,y,z *)
  emit (EvReadVolume (image_layer_path cfg) (mip cfg) (reversed input));;
  czyx ← lift (cutout_image w (reversed input));
  assert (dim0 czyx =? 1)%nat;;
  img ← lift (squeeze0 czyx);
  modify (with_image {| data := img;
                        global_offset := (fst (expand sz m0), fst (expand sy m1),
                                          fst (expand sx m2)) |}).

(** *** [_upload_log] *)

Definition _upload_log (log_path : string) : M unit :=
  s ← get_self;
  emit (EvPutFile log_path (to_filename w (output_bbox s)) (log s));;
  lift (put_file w log_path (to_filename w (output_bbox s))).

(** *** [_validate_image] *)

(** [go + f - (go - vo) % f] and [go + s - (go + s - vo) % f]. *)
Definition clamp_offset (go vo f : Z) : Z := go + f - (go - vo) mod f.
Definition clamp_stop (go s vo f : Z) : Z := go + s - (go + s - vo) mod f.

(** The loop [for _ in range(n): img = downsample_with_averaging(img,
    [2, 2, 1])]. *)
Fixpoint downsample_loop (n : nat) (img : arr3 Z) : M (arr3 Z) :=
  match n with
  | O => mret img
  | S n' =>
      emit (EvDownsample (2, 2, 1));;
      downsample_loop n' (downsample_with_averaging w img (2, 2, 1))
  end.

(** The region of the image that corresponds to whole voxels of the
    validation mip, in x,y,z order: the surrounding is clamped in the
    XY plane ([factor3] is [(f, f, 1)]). *)
Definition clamped_slices (vmip : nat) (img : OffsetArray) : list slice :=
  let '(gz, gy, gx) := global_offset img in
  let '(vx, vy, vz) := voxel_offset w in
  let f := 2 ^ Z.of_nat (vmip - mip cfg) in
  let '(d, h, wd) := shape3 (data img) in
  [(clamp_offset gx vx f, clamp_stop gx (Z.of_nat wd) vx f);
   (clamp_offset gy vy f, clamp_stop gy (Z.of_nat h) vy f);
   (clamp_offset gz vz 1, clamp_stop gz (Z.of_nat d) vz 1)].

Definition _validate_image : M unit :=
  match image_validate_mip cfg with
  | None => mret tt
  | Some vmip =>
      s ← get_self;
      let clamped := clamped_slices vmip (image s) in
      zyx ← lift (offset_cutout w (image s) (rev clamped));
      (* to x,y,z order *)
      let clamped_image := transpose3 0 zyx in
      let validate_bbox := bbox_to_mip w clamped (mip cfg) vmip in
      clamped_image ← downsample_loop (vmip - mip cfg) clamped_image;
      emit (EvTemplateMatching clamped_image);;
      (if validate_by_template_matching w clamped_image then mret tt
       else
         (* the log goes to the error directory *)
         _upload_log (os_path_join (output_layer_path cfg) "error"));;
      emit (EvReadVolume (image_layer_path cfg) vmip validate_bbox);;
      xyzc ← lift (cutout_validate w validate_bbox);
      assert (dim3 xyzc =? 1)%nat;;
      let validate_image := squeeze3 0 xyzc in
      assert (np_alltrue_eq w validate_image clamped_image)
  end.

(** *** [_mask_missing_sections] *)

(** [image[i, :, :] = 0]: the section at index [i] is overwritten with
    zeros. *)
Definition zero_section (i : Z) (img : arr3 Z) : result (arr3 Z) :=
  rbind (py_index (length img) i)
        (fun k => Ok (alter (map (map (fun _ => 0))) k img)).

(** The loop over the section ids, with its [break].  The image is
    updated in place: when an assignment raises, the sections zeroed so
    far stay zeroed. *)
Fixpoint mask_sections_loop (start stop offset0 : Z) (ids : list Z)
    (img : arr3 Z) : result unit * arr3 Z :=
  match ids with
  | [] => (Ok tt, img)
  | z :: rest =>
      if z >? stop then
        (* the id list is supposed to be in ascending order *)
        (Ok tt, img)
      else if (z >=? start) && (z <=? stop) then
        match zero_section (z - offset0) img with
        | Ok img' => mask_sections_loop start stop offset0 rest img'
        | Raise e => (Raise e, img)
        end
      else mask_sections_loop start stop offset0 rest img
  end.

Definition mask_missing_sections_of (ids : list Z) (a : OffsetArray)
  : result unit * OffsetArray :=
  let '(start, stop) := (slices a).1.1 in
  let '(r, img) :=
    mask_sections_loop start stop (global_offset a).1.1 ids (data a) in
  (r, {| data := img; global_offset := global_offset a |}).

(** [np.loadtxt] squeezes what it read: a file with a single id gives
    an array without axes, and the [for] over it raises TypeError before
    any section is touched.  An empty file gives an empty one-axis
    array. *)
Definition _mask_missing_sections : M unit :=
  if str_truthy (missing_section_ids_file_name cfg) then
    let file := default "" (missing_section_ids_file_name cfg) in
    emit (EvLoadTxt file);;
    ids ← lift (loadtxt w file);
    match ids with
    | [_] => raise TypeError
    | _ =>
        s ← get_self;
        let '(r, a) := mask_missing_sections_of ids (image s) in
        modify (with_image a);;
        lift r
    end
  else mret tt.

(** *** [_inference] *)

Definition known_frameworks : list string :=
  ["pznet"; "pytorch"; "pytorch-multitask"; "identity"].

Definition _prepare_inference_engine : M unit :=
  if bool_decide (framework cfg ∈ known_frameworks) then
    if bool_decide (framework cfg ∈ ["pytorch"; "pytorch-multitask"])
    then log_key "device" else mret tt
  else raise (PyException "invalid inference backend").

Definition _inference : M unit :=
  _prepare_inference_engine;;
  s ← get_self;
  let '(iz, iy, ix) := input_slices s in
  let input_chunk := {| data := data (image s);
                        global_offset := (fst iz, fst iy, fst ix) |} in
  emit EvInference;;
  out ← lift (block_inference w (framework cfg) input_chunk);
  modify (with_output out).

(** *** [_crop] *)

(** [a[m : extent - m]] along one axis. *)
Definition crop_axis {A : Type} (m : Z) (l : list A) : list A :=
  py_slice m (Z.of_nat (length l) - m) l.

Definition crop (margin : Z * Z * Z) (out : arr4 val) : arr4 val :=
  let '(m0, m1, m2) := margin in
  map (fun channel =>
         map (fun plane => map (crop_axis m2) (crop_axis m1 plane))
             (crop_axis m0 channel)) out.

Definition _crop : M unit :=
  modify (fun s => with_output (crop (cropping_margin_size cfg) (output s)) s).

(** *** [_mask_output] *)

Definition nonzero (m : Z) : bool := negb (m =? 0).

(** [np.all(self.output_mask)] and [np.any(self.output_mask)]; on
    [None] both are false. *)
Definition np_all_mask (m : option (arr3 Z)) : bool :=
  match m with Some a => all3 nonzero a | None => false end.
Definition np_any_mask (m : option (arr3 Z)) : bool :=
  match m with Some a => any3 nonzero a | None => false end.

(** [np.any(self.output)]. *)
Definition np_any_output (out : arr4 val) : bool :=
  existsb (any3 val_nonzero) out.

(** The mask at the resolution of the output: zeros of the shape
    [output.shape[1:]], filled block by block. *)
Definition upsample (f : nat) (coarse : arr3 Z) (out : arr4 val)
  : result (arr3 Z) :=
  let '(d, h, wd) := shape3 (hd [] out) in
  upsample_loop (ndindex2 f) f coarse (zeros3 0 d h wd).

(** [np.multiply(output[c, :, :, :], mask, out=output[c, :, :, :])]. *)
Definition multiply_channel (c : nat) (mask : arr3 Z) (out : arr4 val)
  : result (arr4 val) :=
  match out !! c with
  | Some channel => Ok (<[c := zip3 val_mul channel mask]> out)
  | None => Raise IndexError
  end.

(** The three multiplications in turn; the output is updated in place,
    so a channel already multiplied stays multiplied when a later
    index raises. *)
Fixpoint multiply_channels (cs : list nat) (mask : arr3 Z) (out : arr4 val)
  : result unit * arr4 val :=
  match cs with
  | [] => (Ok tt, out)
  | c :: rest =>
      match multiply_channel c mask out with
      | Ok out' => multiply_channels rest mask out'
      | Raise e => (Raise e, out)
      end
  end.

Definition mask_output_of (coarse : option (arr3 Z)) (f : nat) (out : arr4 val)
  : result unit * arr4 val :=
  if np_all_mask coarse then
    (* mask elements are all positive, return directly *)
    (Ok tt, out)
  else if negb (np_any_output out) then
    (* output volume is all black, return directly *)
    (Ok tt, out)
  else if negb (np_any_mask coarse) then
    (* assert np.any(self.output_mask), stated twice in the source *)
    (Raise AssertionError, out)
  else
    match upsample f (default [] coarse) out with
    | Raise e => (Raise e, out)
    | Ok mask =>
        if negb (bool_decide (shape3 mask = shape3 (hd [] out)))
        then (Raise AssertionError, out)
        else
          match multiply_channels [0; 1; 2]%nat mask out with
          | (Raise e, out') => (Raise e, out')
          | (Ok _, out') =>
              if np_any_output out' then (Ok tt, out')
              else (Raise AssertionError, out')
          end
    end.

Definition _mask_output : M unit :=
  s ← get_self;
  let '(r, out) := mask_output_of (output_mask s) (xyfactor s) (output s) in
  modify (with_output out);;
  lift r.

(** *** [_upload_output], [_create_output_thumbnail] *)

(** [self.output] is rebound to its transpose, in the x,y,z,c order of
    the store, and stays so after the stage; the transposed array is
    what the write hands over.  The slice over the channel axis covers
    the whole axis and is not part of the event. *)
Definition _upload_output : M unit :=
  s ← get_self;
  (* transpose czyx to xyzc order *)
  let xyzc := transpose4 (output s) in
  modify (with_output xyzc);;
  emit (EvWriteVolume (output_layer_path cfg) (mip cfg)
                      (reversed (output_bbox s)) xyzc);;
  lift (write_volume w).

(** [self.output[:, :, :, -1]] reads the x,y,z,c array that the upload
    left in the field: only the last channel is used, and the index
    raises IndexError on a channel axis without elements. *)
Definition _create_output_thumbnail : M unit :=
  s ← get_self;
  (if (dim3 (output s) =? 0)%nat then raise IndexError else mret tt);;
  emit (EvThumbnail (os_path_join (output_layer_path cfg) "thumbnail"));;
  lift (downsample_and_upload w).

(** *** [__call__] *)

(** [np.all(self.output_mask == 0)]; [None == 0] is false. *)
Definition mask_is_black (m : option (arr3 Z)) : bool :=
  match m with
  | Some a => all3 (fun v => v =? 0) a
  | None => false
  end.

(** The truth value that [if self.output_mask:] asks for. *)
Definition mask_truth (m : option (arr3 Z)) : result bool :=
  match m with
  | Some a => truth_value nonzero a
  | None => Ok false
  end.

(** The end of the body of [__call__], from the test [if
    self.output_mask:] on: the mask stage when the test holds, then the
    uploads of the output, the thumbnail and the log. *)
Definition from_mask_test : M unit :=
  s ← get_self;
  masked ← lift (mask_truth (output_mask s));
  (if masked : bool then _mask_output;; log_key "mask_output" else mret tt);;
  _upload_output;;
  log_key "upload_output";;
  _create_output_thumbnail;;
  log_key "create_output_thumbnail";;
  log_key "total_time";;
  _upload_log (os_path_join (output_layer_path cfg) "log").

(** The body of [__call__] below the test of a black mask: the stages
    from the image read to the crop, then the rest. *)
Definition after_mask : M unit :=
  _read_image;;
  log_key "read_image";;
  _validate_image;;
  log_key "validate_image";;
  _mask_missing_sections;;
  log_key "mask_missing_sections";;
  _inference;;
  log_key "_inference";;
  _crop;;
  log_key "crop_output";;
  from_mask_test.

Definition __call__ (box : bbox) : M unit :=
  modify (with_bbox box);;
  modify (with_log []);;
  _read_output_mask;;
  log_key "read_output_mask";;
  s ← get_self;
  (* if the mask is black, no need to run inference *)
  if mask_is_black (output_mask s) then mret tt
  else after_mask.

(** The fields of a freshly constructed executor. *)
Definition fresh : St :=
  {| self := {| output_bbox := ((0, 0), (0, 0), (0, 0)); log := [];
                output_mask := None; xyfactor := 0;
                output_mask_slices := ((0, 0), (0, 0), (0, 0));
                input_slices := ((0, 0), (0, 0), (0, 0));
                image := {| data := []; global_offset := (0, 0, 0) |};
                output := [] |};
     trace := [] |}.

(** One invocation of a fresh executor: its result and its trace. *)
Definition run (box : bbox) : result unit * list event :=
  let '(r, st) := __call__ box fresh in (r, trace st).

(** The slices the mask volume is read at, in x,y,z order. *)
Definition mask_request (box : bbox) : list slice :=
  let f := Z.of_nat (2 ^ (output_mask_mip cfg - mip cfg)) in
  let '(sz, sy, sx) := box in
  [floordiv_slice f sx; floordiv_slice f sy; sz].

(** *** Reading a trace *)

(** The log publications of a trace: where each log file was put. *)
Definition puts (evs : list event) : list (string * string) :=
  omap (fun ev => match ev with
                  | EvPutFile log_path file_path _ => Some (log_path, file_path)
                  | _ => None
                  end) evs.

(** The factors of the downsampling calls of a trace. *)
Definition downsample_factors (evs : list event) : list (Z * Z * Z) :=
  omap (fun ev => match ev with
                  | EvDownsample f => Some f
                  | _ => None
                  end) evs.

Definition error_log : string := os_path_join (output_layer_path cfg) "error".
Definition success_log : string := os_path_join (output_layer_path cfg) "log".

(** [m] keeps the output bounding box, only adds to the trace, and its
    result and the events it adds satisfy [Q]. *)
Definition stage {A : Type} (m : M A)
    (Q : bbox -> result A -> list event -> Prop) : Prop :=
  forall st,
    output_bbox (self (m st).2) = output_bbox (self st) /\
    exists evs, trace (m st).2 = trace st ++ evs /\
                Q (output_bbox (self st)) (m st).1 evs.

(** A stage that publishes no log. *)
Definition quiet {A : Type} (m : M A) : Prop :=
  stage m (fun _ _ evs => puts evs = []).

(** Log publications before the end of an invocation: none, or one at
    the error path. *)
Definition no_put (b : bbox) (p : list (string * string)) : Prop := p = [].
Definition at_most_error_put (b : bbox) (p : list (string * string)) : Prop :=
  p = [] \/ p = [(error_log, to_filename w b)].

(** The two ways the stages after the mask fetch can end: a stage
    raised, or the log was put at the success path as the last event and
    the result is the result of that put. *)
Definition ends_in_log (before : bbox -> list (string * string) -> Prop)
    (b : bbox) (r : result unit) (evs : list event) : Prop :=
  (exists e, r = Raise e /\ before b (puts evs)) \/
  (exists evs0 keys,
     evs = evs0 ++ [EvPutFile success_log (to_filename w b) keys] /\
     before b (puts evs0) /\
     r = put_file w success_log (to_filename w b)).

(** The comparison with the reference at the validation mip: the end
    of [_validate_image], after the read of the reference. *)
Definition reference_check (vmip : nat) (clamped : list slice)
    (checked : arr3 Z) : result unit :=
  rbind (cutout_validate w (bbox_to_mip w clamped (mip cfg) vmip))
        (fun xyzc =>
           if (dim3 xyzc =? 1)%nat then
             if np_alltrue_eq w (squeeze3 0 xyzc) checked then Ok tt
             else Raise AssertionError
           else Raise AssertionError).

(** One halving step of the validation, and the image that the
    template matching is given. *)
Definition halve (a : arr3 Z) : arr3 Z :=
  downsample_with_averaging w a (2, 2, 1).
Definition checked_image (vmip : nat) (zyx : arr3 Z) : arr3 Z :=
  Nat.iter (vmip - mip cfg) halve (transpose3 0 zyx).

(** The three publications of an invocation, for the output bounding
    box [b] and the output [out]. *)
Definition output_write (b : bbox) (out : arr4 val) : event :=
  EvWriteVolume (output_layer_path cfg) (mip cfg) (reversed b) out.
Definition thumbnail_write : event :=
  EvThumbnail (os_path_join (output_layer_path cfg) "thumbnail").
Definition log_put (b : bbox) (keys : list string) : event :=
  EvPutFile success_log (to_filename w b) keys.

(** What the uploads at the end of [__call__] do with the output [out]
    of the stages before them: its transpose is handed to the store, and
    each upload is attempted only after the one before it succeeded. *)
Definition publication (b : bbox) (out : arr4 val) (r : result unit)
    (evs : list event) : Prop :=
  let xyzc := transpose4 out in
  match write_volume w with
  | Raise e => r = Raise e /\ evs = [output_write b xyzc]
  | Ok _ =>
      if (dim3 xyzc =? 0)%nat then
        r = Raise IndexError /\ evs = [output_write b xyzc]
      else
        match downsample_and_upload w with
        | Raise e => r = Raise e /\ evs = [output_write b xyzc; thumbnail_write]
        | Ok _ =>
            exists keys,
              evs = [output_write b xyzc; thumbnail_write; log_put b keys] /\
              r = put_file w success_log (to_filename w b)
        end
  end.

(** An invocation that did not raise below the mask test has written
    the output, then the thumbnail, then the log, and all three were
    accepted. *)
Definition ends_published (b : bbox) (r : result unit) (evs : list event)
  : Prop :=
  (exists e, r = Raise e) \/
  (exists evs0 out keys,
     evs = evs0 ++ [output_write b out; thumbnail_write; log_put b keys] /\
     write_volume w = Ok tt /\ downsample_and_upload w = Ok tt /\
     put_file w success_log (to_filename w b) = Ok tt).

(** Number of indices of a slice. *)
Definition extent (s : slice) : nat := Z.to_nat (snd s - fst s).

End Pipeline.

Arguments stage {val A}.
Arguments output_write {val}.
Arguments thumbnail_write {val}.
Arguments log_put {val}.
Arguments publication {val}.
Arguments ends_published {val}.
Arguments ends_in_log {val}.
Arguments clamped_slices {val}.
Arguments at_most_error_put {val}.
Arguments reference_check {val}.
Arguments halve {val}.
Arguments checked_image {val}.
Arguments quiet {val A}.
Arguments puts {val}.
Arguments downsample_factors {val}.
Arguments raise {val A}.
Arguments get_self {val}.
Arguments emit {val}.
Arguments lift {val A}.
Arguments modify {val}.
Arguments assert {val}.
Arguments log_key {val}.
Arguments self {val}.
Arguments trace {val}.
Arguments output_bbox {val}.
Arguments log {val}.
Arguments output_mask {val}.
Arguments xyfactor {val}.
Arguments output_mask_slices {val}.
Arguments input_slices {val}.
Arguments image {val}.
Arguments output {val}.
Arguments cutout_mask {val}.
Arguments cutout_image {val}.
Arguments voxel_offset {val}.
Arguments bbox_to_mip {val}.
Arguments offset_cutout {val}.
Arguments downsample_with_averaging {val}.
Arguments validate_by_template_matching {val}.
Arguments cutout_validate {val}.
Arguments np_alltrue_eq {val}.
Arguments loadtxt {val}.
Arguments block_inference {val}.
Arguments write_volume {val}.
Arguments downsample_and_upload {val}.
Arguments put_file {val}.
Arguments to_filename {val}.
Arguments EvReadVolume {val}.
Arguments EvLoadTxt {val}.
Arguments EvDownsample {val}.
Arguments EvTemplateMatching {val}.
Arguments EvInference {val}.
Arguments EvWriteVolume {val}.
Arguments EvThumbnail {val}.
Arguments EvPutFile {val}.
End Executor.

(** ** Sample inputs *)

Module Fixtures.
Import Np Executor.

(** An executor with a mask layer two times coarser than the output, a
    validation mip one level up, and a file of missing sections. *)
Definition cfg0 : Config := {|
  image_layer_path := "gs://img";
  output_layer_path := "gs://out";
  output_mask_layer_path := Some "gs://mask";
  cropping_margin_size := (1, 1, 1);
  mip := 1;
  output_mask_mip := 2;
  framework := "identity";
  missing_section_ids_file_name := Some "ids.txt";
  image_validate_mip := Some 2%nat
|}.

Definition image0 : arr3 Z := replicate 4 (replicate 4 (replicate 4 5)).

(** Collaborators that answer every call: the mask volume holds [mask],
    the template matching answers [healthy], the identity engine returns
    the image on three channels. *)
Definition world0 (mask : arr3 Z) (healthy : bool) : World Z := {|
  cutout_mask := fun _ => Ok [mask];
  cutout_image := fun _ => Ok [image0];
  voxel_offset := (0, 0, 0);
  bbox_to_mip := fun s _ _ => s;
  offset_cutout := fun a _ => Ok (data a);
  downsample_with_averaging := fun a _ => a;
  validate_by_template_matching := fun _ => healthy;
  cutout_validate := fun _ => Ok (map3 (fun v => [v]) (transpose3 0 image0));
  np_alltrue_eq := fun a b => bool_decide (a = b);
  loadtxt := fun _ => Ok [11; 12];
  block_inference := fun _ a => Ok (replicate 3 (data a));
  write_volume := Ok tt;
  downsample_and_upload := Ok tt;
  put_file := fun _ _ => Ok tt;
  to_filename := fun _ => "11-13_0-2_0-2"
|}.

Definition box0 : bbox := ((11, 13), (0, 2), (0, 2)).

(** The state of the executor once the image of [box0] has been read. *)
Definition st_image : St Z :=
  {| self := {| output_bbox := box0; log := ["read_output_mask"; "read_image"];
                output_mask := Some [[[1]]]; xyfactor := 2;
                output_mask_slices := ((11, 13), (0, 1), (0, 1));
                input_slices := ((10, 14), (-1, 3), (-1, 3));
                image := {| data := image0; global_offset := (10, -1, -1) |};
                output := [] |};
     trace := [] |}.

(** An image of twenty sections whose depth axis spans [90, 110). *)
Definition sections_90_110 : OffsetArray :=
  {| data := replicate 20 [[7; 7]; [7; 7]]; global_offset := (90, 0, 0) |}.

(** Four output channels of one section of 2 by 4 voxels, and a coarse
    mask of 1 by 2 elements at half the resolution. *)
Definition out4 : arr4 Z := replicate 4 [[[1; 2; 3; 4]; [5; 6; 7; 8]]].
Definition half_mask : arr3 Z := [[[1; 0]]].

Definition st_mask (mask : arr3 Z) (f : nat) (out : arr4 Z) : St Z :=
  {| self := {| output_bbox := box0; log := [];
                output_mask := Some mask; xyfactor := f;
                output_mask_slices := ((11, 13), (0, 1), (0, 1));
                input_slices := ((10, 14), (-1, 3), (-1, 3));
                image := {| data := image0; global_offset := (10, -1, -1) |};
                output := out |};
     trace := [] |}.

(** A queue that is empty for two polls and then delivers a message
    whose checksum is its body (under the identity as digest). *)
Definition task_message : SQS.message :=
  {| SQS.ReceiptHandle := "handle-1"; SQS.Body := "11-13_0-2_0-2";
     SQS.MD5OfBody := "11-13_0-2_0-2" |}.
Definition queue_after_two (n : nat) : option SQS.message :=
  if (n <? 2)%nat then None else Some task_message.

(** Twenty-three messages, and a queue that rejects its second batch. *)
Definition messages23 : list string := replicate 23 "11-13_0-2_0-2".
Definition rejects_second (n : nat) (b : list SQS.entry) : bool := (n =? 1)%nat.

(** Collaborators whose mask volume cannot be read. *)
Definition world_without_mask_volume : World Z := {|
  cutout_mask := fun _ => Raise (ExternalError "mask volume");
  cutout_image := cutout_image (world0 [[[1]]] true);
  voxel_offset := voxel_offset (world0 [[[1]]] true);
  bbox_to_mip := bbox_to_mip (world0 [[[1]]] true);
  offset_cutout := offset_cutout (world0 [[[1]]] true);
  downsample_with_averaging := downsample_with_averaging (world0 [[[1]]] true);
  validate_by_template_matching :=
    validate_by_template_matching (world0 [[[1]]] true);
  cutout_validate := cutout_validate (world0 [[[1]]] true);
  np_alltrue_eq := np_alltrue_eq (world0 [[[1]]] true);
  loadtxt := loadtxt (world0 [[[1]]] true);
  block_inference := block_inference (world0 [[[1]]] true);
  write_volume := Ok tt;
  downsample_and_upload := Ok tt;
  put_file := fun _ _ => Ok tt;
  to_filename := to_filename (world0 [[[1]]] true)
|}.

(** One channel of one section of 4 by 4 voxels and a coarse mask of 2
    by 2 elements. *)
Definition out_4x4 : arr4 Z := [[replicate 4 [9; 9; 9; 9]]].
Definition checker_mask : arr3 Z := [[[1; 0]; [0; 1]]].

End Fixtures.

(** * Properties *)

Import Np Executor.

(** ** The queue *)

Section QueueProperties.

Variable md5_hexdigest : string -> string.
Variable wait_if_empty : option Z.
Variable receive_message : nat -> option SQS.message.

Hypothesis Hempty : SQS.persistently_empty receive_message.

Local Abbreviation next_from := (SQS.next_from md5_hexdigest wait_if_empty receive_message).
Local Abbreviation wait := (SQS.wait_seconds wait_if_empty).

(** One frame of the retry: a poll and a sleep. *)
Lemma next_from_retry depth n :
  SQS.truthy wait_if_empty = true -> 0 <= wait ->
  next_from (S depth) n =
    (SQS.Receive :: SQS.Sleep wait :: (next_from depth (S n)).1,
     (next_from depth (S n)).2).
Proof.
  intros Hw Hpos. simpl. rewrite Hempty, Hw.
  destruct (Z.ltb_spec wait 0) as [Hlt|_]; [lia|].
  by destruct (next_from depth (S n)).
Qed.

Lemma next_from_empty depth : forall n,
  SQS.truthy wait_if_empty = true -> 0 <= wait ->
  next_from depth n =
    (concat (replicate depth [SQS.Receive; SQS.Sleep wait]),
     Raise RecursionError).
Proof.
  induction depth as [|depth IH]; intros n Hw Hpos; [done|].
  rewrite next_from_retry by done. by rewrite IH.
Qed.

Lemma total_wait_retries depth :
  SQS.total_wait (concat (replicate depth [SQS.Receive; SQS.Sleep wait]))
  = Z.of_nat depth * wait.
Proof.
  induction depth as [|depth IH]; [done|].
  cbn [replicate concat app SQS.total_wait]. rewrite IH. lia.
Qed.

End QueueProperties.

(** C9 (as amended).  With a positive empty-queue wait, [next()] on a
    persistently empty queue never yields the end-of-queue signal: after
    every empty poll it sleeps [wait_if_empty] seconds and polls again, as
    long as the recursion limit allows; with [d] frames left it polls [d]
    times, sleeps [d * wait_if_empty] seconds and ends in RecursionError.
    With a negative wait the first empty poll ends in the ValueError of
    [sleep], without any waiting and again without the end-of-queue
    signal.  StopIteration is raised, at the first empty poll and without
    any waiting, only when the wait is zero or [None]. *)
Theorem next_on_empty_queue md5 wait_if_empty receive_message :
  SQS.persistently_empty receive_message ->
  (SQS.truthy wait_if_empty = true -> 0 <= SQS.wait_seconds wait_if_empty ->
   forall depth,
     SQS.__next__ md5 wait_if_empty receive_message depth =
       (concat (replicate depth
                  [SQS.Receive; SQS.Sleep (SQS.wait_seconds wait_if_empty)]),
        Raise RecursionError) /\
     (SQS.__next__ md5 wait_if_empty receive_message depth).2
       <> Raise StopIteration /\
     SQS.total_wait (SQS.__next__ md5 wait_if_empty receive_message depth).1
       = Z.of_nat depth * SQS.wait_seconds wait_if_empty) /\
  (SQS.truthy wait_if_empty = true -> SQS.wait_seconds wait_if_empty < 0 ->
   forall depth,
     SQS.__next__ md5 wait_if_empty receive_message (S depth) =
       ([SQS.Receive], Raise ValueError)) /\
  (SQS.truthy wait_if_empty = false ->
   forall depth,
     SQS.__next__ md5 wait_if_empty receive_message (S depth) =
       ([SQS.Receive], Raise StopIteration)) /\
  (forall depth,
     (SQS.__next__ md5 wait_if_empty receive_message depth).2
       = Raise StopIteration ->
     SQS.truthy wait_if_empty = false).
Proof.
  intros Hempty.
  assert (SQS.truthy wait_if_empty = true -> SQS.wait_seconds wait_if_empty < 0 ->
          forall depth,
            SQS.__next__ md5 wait_if_empty receive_message (S depth) =
              ([SQS.Receive], Raise ValueError)) as Hneg.
  { intros Hw Hlt depth. unfold SQS.__next__. simpl. rewrite Hempty, Hw.
    by destruct (Z.ltb_spec (SQS.wait_seconds wait_if_empty) 0) as [_|?]; [|lia]. }
  assert (SQS.truthy wait_if_empty = true -> 0 <= SQS.wait_seconds wait_if_empty ->
          forall depth,
            SQS.__next__ md5 wait_if_empty receive_message depth =
              (concat (replicate depth
                         [SQS.Receive; SQS.Sleep (SQS.wait_seconds wait_if_empty)]),
               Raise RecursionError)) as Hpos.
  { intros Hw Hge depth. unfold SQS.__next__.
    exact (next_from_empty md5 _ _ Hempty depth 0%nat Hw Hge). }
  split_and!.
  - intros Hw Hge depth. rewrite (Hpos Hw Hge depth).
    cbn [fst snd]. split_and!; [done|discriminate|apply total_wait_retries].
  - exact Hneg.
  - intros Hw depth. unfold SQS.__next__. simpl. by rewrite Hempty, Hw.
  - intros depth Hstop.
    destruct (SQS.truthy wait_if_empty) eqn:Hw; [exfalso|done].
    destruct (Z.lt_ge_cases (SQS.wait_seconds wait_if_empty) 0) as [Hlt|Hge].
    + destruct depth as [|depth]; [discriminate Hstop|].
      rewrite (Hneg eq_refl Hlt depth) in Hstop. discriminate Hstop.
    + rewrite (Hpos eq_refl Hge depth) in Hstop. discriminate Hstop.
Qed.

(** A queue that stays empty, polled with the default wait of 100
    seconds and six frames left. *)
Lemma next_on_empty_queue_witness :
  SQS.__next__ (fun body => body) (Some 100) (fun _ => None) 6 =
    (concat (replicate 6 [SQS.Receive; SQS.Sleep 100]), Raise RecursionError) /\
  SQS.total_wait (SQS.__next__ (fun body => body) (Some 100) (fun _ => None) 6).1
    = 600.
Proof.
  destruct (next_on_empty_queue (fun body => body) (Some 100) (fun _ => None))
    as (Hretry & _); [intros n; reflexivity|].
  destruct (Hretry eq_refl ltac:(vm_compute; discriminate) 6%nat) as (H1 & _ & H3).
  split; [exact H1 | exact H3].
Defined.

(** C9 (as stated) fails: with the default wait of 100 seconds a queue
    that stays empty never makes [next()] raise StopIteration, whatever
    the number of frames granted. *)
Lemma next_never_stops_on_empty_queue :
  ~ exists depth,
      (SQS.__next__ (fun body => body) (Some 100) (fun _ => None) depth).2
      = Raise StopIteration.
Proof.
  intros [depth H]. unfold SQS.__next__ in H.
  rewrite (next_from_empty _ (Some 100) (fun _ => None)) in H;
    [discriminate | intros n; reflexivity | reflexivity | vm_compute; discriminate].
Qed.

(** ** The mask stage *)

Section MaskOutput.

Context {val : Type}.
Variable val_nonzero : val -> bool.
Variable val_mul : val -> Z -> val.

Local Abbreviation multiply_channels := (multiply_channels val val_mul).
Local Abbreviation mask_output_of := (mask_output_of val val_nonzero val_mul).

(** The multiplications touch the listed channels only, and succeed only
    when every listed channel exists. *)
Lemma multiply_channels_spec mask cs : forall out r out',
  multiply_channels cs mask out = (r, out') ->
  length out' = length out /\
  (forall c, c ∉ cs -> out' !! c = out !! c) /\
  (r = Ok tt -> NoDup cs -> forall c, c ∈ cs ->
     exists channel, out !! c = Some channel /\
                     out' !! c = Some (zip3 val_mul channel mask)).
Proof.
  induction cs as [|c0 cs IH]; intros out r out' H; simpl in H.
  - injection H as <- <-. split_and!; [done|done|].
    intros _ _ c Hc. by apply elem_of_nil in Hc.
  - unfold multiply_channel in H.
    destruct (out !! c0) as [channel|] eqn:Hc0.
    + apply IH in H as (Hlen & Hframe & Hmul).
      rewrite length_insert in Hlen.
      split_and!; [done| |].
      * intros c Hc. apply not_elem_of_cons in Hc as [Hne Hc].
        rewrite (Hframe c Hc). by apply list_lookup_insert_ne.
      * intros Hr Hnd c Hc. apply NoDup_cons in Hnd as [Hfresh Hnd].
        apply elem_of_cons in Hc as [->|Hc].
        -- exists channel. split; [done|].
           rewrite (Hframe c0 Hfresh). apply list_lookup_insert_eq.
           by eapply lookup_lt_Some.
        -- destruct (Hmul Hr Hnd c Hc) as (ch & Hch & Hout').
           exists ch. split; [|done].
           rewrite list_lookup_insert_ne in Hch; [done|].
           intros ->. contradiction.
    + injection H as <- <-. split_and!; [done|done|discriminate].
Qed.

End MaskOutput.

Section MaskOutputClaims.

Context {val : Type}.
Variable val_nonzero : val -> bool.
Variable val_mul : val -> Z -> val.

Local Abbreviation mask_output_of := (mask_output_of val val_nonzero val_mul).
Local Abbreviation mask_output_stage :=
  (Executor._mask_output val val_nonzero val_mul).

(** A stage that hands back the output it was given leaves the whole
    state as it was. *)
Lemma mask_output_unchanged (st : St val) :
  mask_output_of (output_mask (self st)) (xyfactor (self st)) (output (self st))
    = (Ok tt, output (self st)) ->
  mask_output_stage st = (Ok tt, st).
Proof.
  intros H. unfold Executor._mask_output, mbind, M_bind, get_self.
  rewrite H. by destruct st as [[] ?].
Qed.

(** C6.  The mask stage returns at once, with the output and every other
    field bit-identical, when every element of the coarse mask is
    nonzero, and likewise when the output is entirely zero.  In both
    cases the upsampled mask is not computed: the result does not depend
    on whether the upsampling would succeed. *)
Theorem mask_output_short_circuits (st : St val) :
  (np_all_mask (output_mask (self st)) = true ->
     mask_output_stage st = (Ok tt, st) /\
     forall f out, mask_output_of (output_mask (self st)) f out = (Ok tt, out)) /\
  (np_any_output val val_nonzero (output (self st)) = false ->
     mask_output_stage st = (Ok tt, st) /\
     forall f coarse,
       mask_output_of coarse f (output (self st)) = (Ok tt, output (self st))).
Proof.
  split.
  - intros Hall.
    assert (forall f out,
      mask_output_of (output_mask (self st)) f out = (Ok tt, out)) as Hpure.
    { intros f out. unfold Executor.mask_output_of. by rewrite Hall. }
    split; [|done]. apply mask_output_unchanged, Hpure.
  - intros Hany.
    assert (forall f coarse,
      mask_output_of coarse f (output (self st)) = (Ok tt, output (self st)))
      as Hpure.
    { intros f coarse. unfold Executor.mask_output_of. rewrite Hany.
      by destruct (np_all_mask coarse). }
    split; [|done]. apply mask_output_unchanged, Hpure.
Qed.

(** The function of the stage on the output, when neither short-circuit
    fires. *)
Lemma mask_output_of_channels coarse f (out : arr4 val) r out' :
  np_all_mask coarse = false ->
  np_any_output val val_nonzero out = true ->
  mask_output_of coarse f out = (r, out') ->
  length out' = length out /\
  (forall c, (3 <= c)%nat -> out' !! c = out !! c) /\
  (r = Ok tt ->
     (3 <= length out)%nat /\
     exists mask, upsample val f (default [] coarse) out = Ok mask /\
       forall c, (c < 3)%nat ->
         exists channel, out !! c = Some channel /\
                         out' !! c = Some (zip3 val_mul channel mask)).
Proof.
  intros Hall Hany H. unfold Executor.mask_output_of in H.
  rewrite Hall, Hany in H. cbn [negb] in H.
  destruct (np_any_mask coarse); cbn [negb] in H;
    [|injection H as <- <-; split_and!; [done|done|discriminate]].
  destruct (upsample val f (default [] coarse) out) as [mask|e];
    [|injection H as <- <-; split_and!; [done|done|discriminate]].
  destruct (bool_decide (shape3 mask = shape3 (hd [] out))); cbn [negb] in H;
    [|injection H as <- <-; split_and!; [done|done|discriminate]].
  destruct (multiply_channels val val_mul [0; 1; 2]%nat mask out)
    as [r1 out1] eqn:Hmul.
  apply multiply_channels_spec in Hmul as (Hlen & Hframe & Hdone).
  assert (out' = out1) as ->.
  { destruct r1; [destruct (np_any_output val val_nonzero out1)|];
      by injection H as _ <-. }
  split_and!; [done| |].
  - intros c Hc. apply Hframe. rewrite !not_elem_of_cons.
    split_and!; [lia..|apply not_elem_of_nil].
  - intros ->. destruct r1 as [[]|e]; [|discriminate].
    assert (NoDup [0; 1; 2]%nat) as Hnd.
    { by apply (bool_decide_unpack _). }
    specialize (Hdone eq_refl Hnd).
    split.
    + destruct (Hdone 2%nat) as (ch & Hch & _); [repeat constructor|].
      apply lookup_lt_Some in Hch. lia.
    + exists mask. split; [done|]. intros c Hc. apply Hdone.
      destruct c as [|[|[|c]]]; [repeat constructor..|lia].
Qed.

(** The stage applies that function to the fields [output_mask],
    [xyfactor] and [output] and assigns the output it gives. *)
Lemma mask_output_stage_eq (st : St val) :
  mask_output_stage st =
    let ro := mask_output_of (output_mask (self st)) (xyfactor (self st))
                             (output (self st)) in
    (ro.1, {| self := with_output val ro.2 (self st); trace := trace st |}).
Proof.
  unfold Executor._mask_output, mbind, M_bind, get_self. cbv zeta.
  by destruct (mask_output_of _ _ _) as [r out].
Qed.

(** C10.  When neither short-circuit fires, the mask stage assigns no
    field but the output, adds no event, and leaves every channel of
    index three or more as it was, whatever the outcome; and when it
    completes, the output has at least three channels and each of the
    channels 0, 1 and 2 is the old channel multiplied, element by
    element, by the mask of the stage upsampled by its factor. *)
Theorem mask_output_first_three_channels (st : St val) :
  np_all_mask (output_mask (self st)) = false ->
  np_any_output val val_nonzero (output (self st)) = true ->
  exists r st',
    mask_output_stage st = (r, st') /\
    self st' = with_output val (output (self st')) (self st) /\
    trace st' = trace st /\
    mask_output_of (output_mask (self st)) (xyfactor (self st))
                   (output (self st)) = (r, output (self st')) /\
    length (output (self st')) = length (output (self st)) /\
    (forall c, (3 <= c)%nat -> output (self st') !! c = output (self st) !! c) /\
    (r = Ok tt ->
       (3 <= length (output (self st)))%nat /\
       exists mask,
         upsample val (xyfactor (self st)) (default [] (output_mask (self st)))
                  (output (self st)) = Ok mask /\
         forall c, (c < 3)%nat ->
           exists channel,
             output (self st) !! c = Some channel /\
             output (self st') !! c = Some (zip3 val_mul channel mask)).
Proof.
  intros Hall Hany. rewrite mask_output_stage_eq. cbv zeta.
  destruct (mask_output_of (output_mask (self st)) (xyfactor (self st))
              (output (self st))) as [r out'] eqn:Hof.
  exists r, {| self := with_output val out' (self st); trace := trace st |}.
  cbn [fst snd self trace output with_output].
  destruct (mask_output_of_channels _ _ _ _ _ Hall Hany Hof) as (Hlen & Hframe & Hdone).
  by split_and!.
Qed.

End MaskOutputClaims.

(** ** The crop stage *)

Section Crop.

Context {A : Type}.

Lemma crop_axis_spec (m n : nat) (l : list A) :
  length l = (n + 2 * m)%nat ->
  length (crop_axis (Z.of_nat m) l) = n /\
  forall k, (k < n)%nat -> crop_axis (Z.of_nat m) l !! k = l !! (k + m)%nat.
Proof.
  intros Hlen. unfold crop_axis, py_slice, slice_bound. rewrite Hlen.
  destruct (Z.ltb_spec (Z.of_nat m) 0) as [?|_]; [lia|].
  destruct (Z.ltb_spec (Z.of_nat (n + 2 * m) - Z.of_nat m) 0) as [?|_]; [lia|].
  replace (Z.to_nat (Z.of_nat (n + 2 * m) - Z.of_nat m)) with (n + m)%nat by lia.
  rewrite Nat2Z.id.
  replace (Nat.min (n + m) (n + 2 * m) - Nat.min m (n + 2 * m))%nat with n by lia.
  replace (Nat.min m (n + 2 * m)) with m by lia.
  split.
  - rewrite length_take, length_drop. lia.
  - intros k Hk. rewrite lookup_take_lt by done. rewrite lookup_drop.
    f_equal. lia.
Qed.

Lemma crop_axis_Forall (P : A -> Prop) (m : Z) (l : list A) :
  Forall P l -> Forall P (crop_axis m l).
Proof. intros H. unfold crop_axis, py_slice. by apply Forall_take, Forall_drop. Qed.

Lemma map_lookup {B : Type} (f : A -> B) (l : list A) (i : nat) :
  map f l !! i = f <$> l !! i.
Proof. apply (list_lookup_fmap f l i). Qed.

Lemma map_Forall {B : Type} (f : A -> B) (P : B -> Prop) (l : list A) :
  Forall (fun x => P (f x)) l -> Forall P (map f l).
Proof. intros H. by apply (Forall_fmap f P l). Qed.

End Crop.

Section CropClaims.

Context {val : Type}.

Lemma crop_shape (C D H W M0 M1 M2 : nat) (out : arr4 val) :
  has_shape4 C (D + 2 * M0) (H + 2 * M1) (W + 2 * M2) out ->
  has_shape4 C D H W (crop val (Z.of_nat M0, Z.of_nat M1, Z.of_nat M2) out).
Proof.
  intros [HC Hout]. unfold crop.
  split; [by rewrite length_map|].
  apply map_Forall. eapply Forall_impl; [exact Hout|].
  intros channel [Hd Hplanes]. split.
  - rewrite length_map. by apply crop_axis_spec.
  - apply map_Forall, crop_axis_Forall.
    eapply Forall_impl; [exact Hplanes|].
    intros plane [Hh Hrows]. cbn beta. split.
    + rewrite length_map. by apply crop_axis_spec.
    + apply map_Forall, crop_axis_Forall.
      eapply Forall_impl; [exact Hrows|].
      intros row Hw. cbn beta. by apply crop_axis_spec.
Qed.

Lemma crop_voxels (C D H W M0 M1 M2 : nat) (out : arr4 val) :
  has_shape4 C (D + 2 * M0) (H + 2 * M1) (W + 2 * M2) out ->
  forall c z y x, (c < C)%nat -> (z < D)%nat -> (y < H)%nat -> (x < W)%nat ->
    get4 (crop val (Z.of_nat M0, Z.of_nat M1, Z.of_nat M2) out) c z y x
    = get4 out c (z + M0) (y + M1) (x + M2) /\
    is_Some (get4 out c (z + M0) (y + M1) (x + M2)).
Proof.
  intros Hshape.
  - destruct Hshape as [HC Hout].
    intros c z y x Hc Hz Hy Hx. unfold crop, get4, get3.
    rewrite map_lookup.
    destruct (lookup_lt_is_Some_2 out c) as [channel Hch]; [lia|].
    rewrite Hch. cbn [fmap option_fmap option_map mbind option_bind].
    destruct (Forall_lookup_1 _ _ _ _ Hout Hch) as [Hd Hplanes].
    rewrite map_lookup.
    rewrite (proj2 (crop_axis_spec M0 D channel Hd) z Hz).
    destruct (lookup_lt_is_Some_2 channel (z + M0)) as [plane Hpl]; [lia|].
    rewrite Hpl. cbn [fmap option_fmap option_map mbind option_bind].
    destruct (Forall_lookup_1 _ _ _ _ Hplanes Hpl) as [Hh Hrows].
    rewrite map_lookup.
    rewrite (proj2 (crop_axis_spec M1 H plane Hh) y Hy).
    destruct (lookup_lt_is_Some_2 plane (y + M1)) as [row Hrow]; [lia|].
    rewrite Hrow. cbn [fmap option_fmap option_map mbind option_bind].
    pose proof (Forall_lookup_1 _ _ _ _ Hrows Hrow) as Hw. cbn beta in Hw.
    rewrite (proj2 (crop_axis_spec M2 W row Hw) x Hx).
    split; [done|]. apply lookup_lt_is_Some_2. lia.
Qed.

(** C7.  The crop stage, run on an output buffer of shape
    (C, D+2*M0, H+2*M1, W+2*M2) with the configured margin (M0, M1, M2),
    returns normally, assigns no field but the output and adds no event;
    the output it leaves has shape (C, D, H, W), and its voxel at
    (c, z, y, x) is the voxel at (c, z+M0, y+M1, x+M2) of the buffer: the
    margin is removed on both sides of every spatial axis and the channel
    axis is left alone.  In particular the stage with the margin
    (4, 32, 32) crops every buffer of shape (3, 68, 320, 320) to the shape
    (3, 60, 256, 256). *)
Theorem crop_keeps_interior (cfg : Config) (st : St val) :
  (forall C D H W M0 M1 M2 : nat,
     cropping_margin_size cfg = (Z.of_nat M0, Z.of_nat M1, Z.of_nat M2) ->
     has_shape4 C (D + 2 * M0) (H + 2 * M1) (W + 2 * M2) (output (self st)) ->
     exists st',
       _crop val cfg st = (Ok tt, st') /\
       self st' =
         with_output val
           (crop val (Z.of_nat M0, Z.of_nat M1, Z.of_nat M2) (output (self st)))
           (self st) /\
       trace st' = trace st /\
       has_shape4 C D H W (output (self st')) /\
       forall c z y x, (c < C)%nat -> (z < D)%nat -> (y < H)%nat -> (x < W)%nat ->
         get4 (output (self st')) c z y x
         = get4 (output (self st)) c (z + M0) (y + M1) (x + M2) /\
         is_Some (get4 (output (self st)) c (z + M0) (y + M1) (x + M2))) /\
  (cropping_margin_size cfg = (4, 32, 32) ->
   has_shape4 3 68 320 320 (output (self st)) ->
   (_crop val cfg st).1 = Ok tt /\
   has_shape4 3 60 256 256 (output (self (_crop val cfg st).2))).
Proof.
  split.
  - intros C D H W M0 M1 M2 Hmargin Hshape.
    eexists. split; [reflexivity|].
    unfold _crop, modify. cbn [self trace output with_output]. rewrite Hmargin.
    split_and!; [done|done|by apply crop_shape|by apply crop_voxels].
  - intros Hmargin Hshape. split; [done|].
    unfold _crop, modify. cbn [self trace output with_output snd]. rewrite Hmargin.
    by apply (crop_shape 3 60 256 256 4 32 32).
Qed.

End CropClaims.

(** ** The missing sections *)

Section MissingSections.

Local Abbreviation zero_plane := (map (map (fun _ : Z => 0))).

Lemma zero_plane_idemp (plane : list (list Z)) :
  zero_plane (zero_plane plane) = zero_plane plane.
Proof. rewrite map_map. apply map_ext. intros row. by rewrite map_map. Qed.

(** An id inside the depth range zeroes its section. *)
Lemma zero_section_inside (img : arr3 Z) (k : Z) :
  0 <= k < Z.of_nat (length img) ->
  zero_section k img = Ok (alter zero_plane (Z.to_nat k) img).
Proof.
  intros Hk. unfold zero_section, py_index.
  destruct (Z.leb_spec 0 k); [|lia].
  destruct (Z.ltb_spec k (Z.of_nat (length img))); [done|lia].
Qed.

(** The id just past the last section is out of bounds. *)
Lemma zero_section_at_stop (img : arr3 Z) :
  zero_section (Z.of_nat (length img)) img = Raise IndexError.
Proof.
  unfold zero_section, py_index.
  destruct (Z.ltb_spec (Z.of_nat (length img)) (Z.of_nat (length img))); [lia|].
  destruct (Z.ltb_spec (Z.of_nat (length img)) 0); [lia|].
  by rewrite !andb_false_r.
Qed.

Lemma sorted_head_le (z : Z) (rest : list Z) (x : Z) :
  StronglySorted Z.le (z :: rest) -> x ∈ z :: rest -> z <= x.
Proof.
  intros Hs Hx. apply StronglySorted_inv in Hs as [_ Hall].
  apply elem_of_cons in Hx as [->|Hx]; [lia|].
  rewrite Forall_forall in Hall. by apply Hall.
Qed.

Variable start : Z.

(** With the id [stop] in an ascending list, the loop reaches it and
    raises. *)
Lemma loop_raises_at_stop (ids : list Z) : forall img : arr3 Z,
  StronglySorted Z.le ids ->
  start + Z.of_nat (length img) ∈ ids ->
  (mask_sections_loop start (start + Z.of_nat (length img)) start ids img).1
    = Raise IndexError.
Proof.
  induction ids as [|z rest IH]; intros img Hs Hin.
  - by apply elem_of_nil in Hin.
  - pose proof (sorted_head_le z rest _ Hs Hin) as Hle.
    cbn [mask_sections_loop].
    destruct (Z.gtb_spec z (start + Z.of_nat (length img))) as [?|_]; [lia|].
    destruct (decide (z = start + Z.of_nat (length img))) as [->|Hne].
    + replace (start + Z.of_nat (length img) - start)
        with (Z.of_nat (length img)) by lia.
      rewrite zero_section_at_stop.
      destruct (Z.geb_spec (start + Z.of_nat (length img)) start); [|lia].
      by destruct (Z.leb_spec (start + Z.of_nat (length img))
                              (start + Z.of_nat (length img))); [|lia].
    + apply elem_of_cons in Hin as [?|Hin]; [congruence|].
      apply StronglySorted_inv in Hs as [Hs _].
      destruct (Z.geb_spec z start) as [Hge|Hlt]; cbn [andb].
      * destruct (Z.leb_spec z (start + Z.of_nat (length img))); [|lia].
        rewrite zero_section_inside by lia.
        specialize (IH (alter zero_plane (Z.to_nat (z - start)) img)).
        rewrite length_alter in IH. by apply IH.
      * by apply IH.
Qed.

(** Without the id [stop], an ascending list zeroes the sections whose
    depth it names, and nothing else. *)
Lemma loop_zeroes_named_sections (ids : list Z) : forall img : arr3 Z,
  StronglySorted Z.le ids ->
  start + Z.of_nat (length img) ∉ ids ->
  mask_sections_loop start (start + Z.of_nat (length img)) start ids img
  = (Ok tt,
     imap (fun k plane =>
             if bool_decide (start + Z.of_nat k ∈ ids)
             then zero_plane plane else plane) img).
Proof.
  induction ids as [|z rest IH]; intros img Hs Hnot.
  - cbn [mask_sections_loop]. f_equal. apply list_eq. intros i.
    rewrite list_lookup_imap. destruct (img !! i); [|done]. cbn.
    rewrite bool_decide_eq_false_2; [done|apply not_elem_of_nil].
  - cbn [mask_sections_loop].
    apply not_elem_of_cons in Hnot as [Hne Hnot].
    destruct (Z.gtb_spec z (start + Z.of_nat (length img))) as [Hgt|Hle].
    + f_equal. apply list_eq. intros i. rewrite list_lookup_imap.
      destruct (img !! i) as [plane|] eqn:Hi; [|done]. cbn.
      apply lookup_lt_Some in Hi.
      rewrite bool_decide_eq_false_2; [done|].
      intros Hin. pose proof (sorted_head_le z rest _ Hs Hin). lia.
    + apply StronglySorted_inv in Hs as [Hs _].
      destruct (Z.geb_spec z start) as [Hge|Hlt]; cbn [andb].
      * destruct (Z.leb_spec z (start + Z.of_nat (length img))); [|lia].
        rewrite zero_section_inside by lia.
        specialize (IH (alter zero_plane (Z.to_nat (z - start)) img)).
        rewrite length_alter in IH. rewrite (IH Hs Hnot).
        f_equal. apply list_eq. intros i. rewrite !list_lookup_imap.
        destruct (decide (Z.to_nat (z - start) = i)) as [<-|Hi].
        -- rewrite list_lookup_alter_eq.
           destruct (img !! Z.to_nat (z - start)) as [plane|]; [|done]. cbn.
           rewrite (bool_decide_eq_true_2 (_ ∈ z :: rest));
             [|apply elem_of_cons; left; lia].
           destruct (bool_decide _); by rewrite ?zero_plane_idemp.
        -- rewrite list_lookup_alter_ne by done.
           destruct (img !! i) as [plane|]; [|done]. cbn.
           rewrite (bool_decide_ext (_ ∈ z :: rest) (start + Z.of_nat i ∈ rest));
             [done|].
           rewrite elem_of_cons. split; [intros [?|?]; [lia|done] | by right].
      * rewrite (IH img Hs Hnot).
        f_equal. apply list_eq. intros i. rewrite !list_lookup_imap.
        destruct (img !! i) as [plane|]; [|done]. cbn.
        rewrite (bool_decide_ext (_ ∈ z :: rest) (start + Z.of_nat i ∈ rest));
          [done|].
        rewrite elem_of_cons. split; [intros [?|?]; [lia|done] | by right].
Qed.

End MissingSections.

Section MissingSectionsClaims.

Lemma sorted_strongly (ids : list Z) : Sorted Z.le ids -> StronglySorted Z.le ids.
Proof. apply Sorted_StronglySorted. intros x y z. apply Z.le_trans. Qed.

Lemma depth_slice (a : OffsetArray) :
  (slices a).1.1 = ((global_offset a).1.1,
                    (global_offset a).1.1 + Z.of_nat (length (data a))).
Proof. unfold slices. by destruct (global_offset a) as [[oz oy] ox]. Qed.

(** The sections named by an ascending id list are zeroed and all other
    voxels kept, as long as the list does not hold the id [stop]. *)
Lemma missing_sections_zeroed (a : OffsetArray) (ids : list Z) :
  Sorted Z.le ids ->
  (slices a).1.1.2 ∉ ids ->
  mask_missing_sections_of ids a =
    (Ok tt,
     {| data := imap (fun k plane =>
                  if bool_decide ((global_offset a).1.1 + Z.of_nat k ∈ ids)
                  then map (map (fun _ => 0)) plane else plane) (data a);
        global_offset := global_offset a |}).
Proof.
  intros Hs Hnot. unfold mask_missing_sections_of.
  rewrite depth_slice in Hnot |- *. cbn [snd] in Hnot.
  by rewrite loop_zeroes_named_sections by auto using sorted_strongly.
Qed.

(** C5, where the code departs from it.  When the ascending id list
    holds the id [stop] of the depth range [start, stop) of the image, the
    stage does not leave that id alone: it indexes the section one past
    the end of the image and raises IndexError. *)
Theorem missing_section_at_stop_raises (a : OffsetArray) (ids : list Z) :
  Sorted Z.le ids ->
  (slices a).1.1.2 ∈ ids ->
  (mask_missing_sections_of ids a).1 = Raise IndexError.
Proof.
  intros Hs Hin. unfold mask_missing_sections_of.
  rewrite depth_slice in Hin |- *. cbn [snd] in Hin.
  pose proof (loop_raises_at_stop (global_offset a).1.1 ids (data a)
                (sorted_strongly ids Hs) Hin) as Hraise.
  by destruct (mask_sections_loop _ _ _ ids (data a)).
Qed.

(** The ids 100 and 110 on an image of depth range [90, 110). *)
Lemma missing_section_at_stop_raises_witness :
  (mask_missing_sections_of [100; 110] Fixtures.sections_90_110).1
  = Raise IndexError.
Proof.
  apply missing_section_at_stop_raises.
  - repeat constructor; lia.
  - apply elem_of_cons; right. apply elem_of_cons; left. reflexivity.
Defined.

(** The scenario of the specification: the ids 100 and 105 zero the
    sections at depth 100 and 105 of an image of depth range [90, 110). *)
Example missing_sections_100_105 :
  mask_missing_sections_of [100; 105] Fixtures.sections_90_110 =
    (Ok tt,
     {| data := replicate 10 [[7; 7]; [7; 7]] ++ [[[0; 0]; [0; 0]]]
                ++ replicate 4 [[7; 7]; [7; 7]] ++ [[[0; 0]; [0; 0]]]
                ++ replicate 4 [[7; 7]; [7; 7]];
        global_offset := (90, 0, 0) |}).
Proof. reflexivity. Qed.

End MissingSectionsClaims.

(** ** Reasoning about stages *)

Section StageRules.

Context {val : Type}.

Lemma puts_app (evs1 evs2 : list (event val)) :
  puts (evs1 ++ evs2) = puts evs1 ++ puts evs2.
Proof. apply omap_app. Qed.

Lemma stage_bind {A B : Type} (m : M val A) (k : A -> M val B)
    (Q1 : bbox -> result A -> list (event val) -> Prop)
    (Q2 : A -> bbox -> result B -> list (event val) -> Prop)
    (Q : bbox -> result B -> list (event val) -> Prop) :
  stage m Q1 ->
  (forall a, stage (k a) (Q2 a)) ->
  (forall b e evs, Q1 b (Raise e) evs -> Q b (Raise e) evs) ->
  (forall b a evs1 r evs2,
     Q1 b (Ok a) evs1 -> Q2 a b r evs2 -> Q b r (evs1 ++ evs2)) ->
  stage (m ≫= k) Q.
Proof.
  intros Hm Hk Hraise Hok st. unfold mbind, M_bind.
  destruct (Hm st) as (Hbox & evs1 & Htr & HQ1).
  destruct (m st) as [[a|e] st1]; cbn [fst snd] in *.
  - destruct (Hk a st1) as (Hbox2 & evs2 & Htr2 & HQ2).
    split; [congruence|]. exists (evs1 ++ evs2). split.
    + rewrite Htr2, Htr. by rewrite app_assoc.
    + rewrite Hbox in HQ2. by eapply Hok.
  - split; [done|]. exists evs1. split; [done|]. by apply Hraise.
Qed.

Lemma stage_weaken {A : Type} (m : M val A)
    (Q Q' : bbox -> result A -> list (event val) -> Prop) :
  stage m Q -> (forall b r evs, Q b r evs -> Q' b r evs) -> stage m Q'.
Proof.
  intros Hm HQ st. destruct (Hm st) as (Hbox & evs & Htr & H).
  split; [done|]. exists evs. auto.
Qed.

Lemma stage_pure {A : Type} (r : result A)
    (Q : bbox -> result A -> list (event val) -> Prop) :
  (forall b, Q b r []) -> stage (lift r) Q.
Proof.
  intros HQ st. split; [done|]. exists []. split; [|apply HQ].
  by rewrite app_nil_r.
Qed.

Lemma quiet_bind {A B : Type} (m : M val A) (k : A -> M val B) :
  quiet m -> (forall a, quiet (k a)) -> quiet (m ≫= k).
Proof.
  intros Hm Hk.
  apply (stage_bind m k _ (fun _ _ _ evs => puts evs = []) _ Hm Hk); [done|].
  intros b a evs1 r evs2 H1 H2. by rewrite puts_app, H1, H2.
Qed.

Lemma quiet_lift {A : Type} (r : result A) : quiet (val:=val) (lift r).
Proof. by apply stage_pure. Qed.

Lemma quiet_ret {A : Type} (a : A) : quiet (val:=val) (mret a).
Proof. apply (quiet_lift (Ok a)). Qed.

Lemma quiet_raise {A : Type} (e : exn) : quiet (val:=val) (A:=A) (raise e).
Proof. apply (quiet_lift (Raise e)). Qed.

Lemma quiet_assert (b : bool) : quiet (val:=val) (assert b).
Proof. destruct b; [apply quiet_ret|apply quiet_raise]. Qed.

Lemma quiet_get_self : quiet (val:=val) get_self.
Proof.
  intros st. split; [done|]. exists []. split; [|done]. by rewrite app_nil_r.
Qed.

Lemma quiet_emit (ev : event val) : puts [ev] = [] -> quiet (emit ev).
Proof. intros Hev st. split; [done|]. by exists [ev]. Qed.

Lemma quiet_modify (f : Self val -> Self val) :
  (forall s, output_bbox (f s) = output_bbox s) -> quiet (modify f).
Proof.
  intros Hf st. split; [apply Hf|]. exists []. split; [|done].
  by rewrite app_nil_r.
Qed.

Lemma quiet_log_key (key : string) : quiet (val:=val) (log_key key).
Proof. by apply quiet_modify. Qed.

End StageRules.

Ltac quiet_step :=
  lazymatch goal with
  | |- quiet (mbind _ _) => apply quiet_bind; [|intros ?]
  | |- quiet (mret _) => apply quiet_ret
  | |- quiet (lift _) => apply quiet_lift
  | |- quiet (raise _) => apply quiet_raise
  | |- quiet (assert _) => apply quiet_assert
  | |- quiet get_self => apply quiet_get_self
  | |- quiet (log_key _) => apply quiet_log_key
  | |- quiet (emit _) => apply quiet_emit; reflexivity
  | |- quiet (modify _) => apply quiet_modify; intros []; reflexivity
  | |- quiet (if ?b then _ else _) => destruct b
  | |- quiet (match ?x with _ => _ end) => destruct x
  end.

Section QuietStages.

Context {val : Type}.
Variable val_nonzero : val -> bool.
Variable val_mul : val -> Z -> val.
Variable cfg : Config.
Variable w : World val.

Lemma quiet_read_output_mask : quiet (_read_output_mask val cfg w).
Proof. unfold _read_output_mask. repeat quiet_step. Qed.

Lemma quiet_read_image : quiet (_read_image val cfg w).
Proof. unfold _read_image. repeat quiet_step. Qed.

Lemma quiet_mask_missing_sections : quiet (_mask_missing_sections val cfg w).
Proof. unfold _mask_missing_sections. repeat quiet_step. Qed.

Lemma quiet_inference : quiet (_inference val cfg w).
Proof. unfold _inference, _prepare_inference_engine. repeat quiet_step. Qed.

Lemma quiet_crop : quiet (_crop val cfg).
Proof. unfold _crop. repeat quiet_step. Qed.

Lemma quiet_mask_output : quiet (_mask_output val val_nonzero val_mul).
Proof. unfold _mask_output. repeat quiet_step. Qed.

Lemma quiet_upload_output : quiet (_upload_output val cfg w).
Proof. unfold _upload_output. repeat quiet_step. Qed.

Lemma quiet_create_output_thumbnail : quiet (_create_output_thumbnail val cfg w).
Proof. unfold _create_output_thumbnail. repeat quiet_step. Qed.

End QuietStages.

(** ** The orchestrator *)

Section Orchestrator.

Context {val : Type}.
Variable val_nonzero : val -> bool.
Variable val_mul : val -> Z -> val.
Variable cfg : Config.
Variable w : World val.

Local Abbreviation call := (__call__ val val_nonzero val_mul cfg w).

Local Abbreviation mask_read box :=
  (EvReadVolume (val:=val) (default "" (output_mask_layer_path cfg))
     (output_mask_mip cfg) (mask_request cfg box)).

(** C1.  When the mask volume answers with a mask that is entirely zero,
    the invocation returns normally right after the fetch: the only
    event of the invocation is the read of the mask, so there is no
    image read, no validation, no inference, no store write of an output
    chunk (and no log file); the output field is not assigned. *)
Theorem black_mask_returns_after_fetch (box : bbox) (st : St val) (m : arr3 Z) :
  str_truthy (output_mask_layer_path cfg) = true ->
  cutout_mask w (mask_request cfg box) = Ok [m] ->
  mask_is_black (Some m) = true ->
  exists st',
    call box st = (Ok tt, st') /\
    trace st' = trace st ++ [mask_read box] /\
    output_mask (self st') = Some m /\
    output (self st') = output (self st) /\
    image (self st') = image (self st).
Proof.
  intros Hpath Hcut Hblack. destruct box as [[sz sy] sx].
  unfold mask_request in Hcut |- *.
  unfold __call__, _read_output_mask, mbind, M_bind, modify, get_self,
    emit, lift, log_key. cbn. rewrite Hpath. cbn. rewrite Hcut.
  cbn -[mask_is_black]. rewrite Hblack. eexists. split; [reflexivity|]. by cbn.
Qed.

(** *** The validation stage *)

Local Abbreviation halvings n := (replicate n (EvDownsample (val:=val) (2, 2, 1))).

Lemma downsample_loop_spec (n : nat) : forall (img : arr3 Z) (st : St val),
  downsample_loop val w n img st =
    (Ok (Nat.iter n (halve w) img),
     {| self := self st; trace := trace st ++ halvings n |}).
Proof.
  induction n as [|n IH]; intros img st.
  - cbn. rewrite app_nil_r. by destruct st.
  - cbn [downsample_loop]. unfold mbind, M_bind, emit. rewrite IH.
    cbn [self trace]. rewrite <- app_assoc. cbn [app replicate].
    by rewrite Nat.iter_succ_r.
Qed.

(** The stage, once the clamped region has been cut out of the image. *)
Lemma validate_image_after_cutout (st : St val) (vmip : nat) (zyx : arr3 Z) :
  image_validate_mip cfg = Some vmip ->
  offset_cutout w (image (self st))
    (rev (clamped_slices cfg w vmip (image (self st)))) = Ok zyx ->
  let n := (vmip - mip cfg)%nat in
  let checked := checked_image cfg w vmip zyx in
  let name := to_filename w (output_bbox (self st)) in
  let clamped := clamped_slices cfg w vmip (image (self st)) in
  let reference :=
    EvReadVolume (image_layer_path cfg) vmip
                 (bbox_to_mip w clamped (mip cfg) vmip) in
  let publication := EvPutFile (error_log cfg) name (log (self st)) in
  let sampled := trace st ++ halvings n ++ [EvTemplateMatching checked] in
  _validate_image val cfg w st =
    if validate_by_template_matching w checked then
      (reference_check cfg w vmip clamped checked,
       {| self := self st; trace := sampled ++ [reference] |})
    else
      match put_file w (error_log cfg) name with
      | Ok _ =>
          (reference_check cfg w vmip clamped checked,
           {| self := self st; trace := sampled ++ [publication; reference] |})
      | Raise e =>
          (Raise e, {| self := self st; trace := sampled ++ [publication] |})
      end.
Proof.
  intros Hv Hcut n checked name clamped reference publication sampled.
  unfold _validate_image. rewrite Hv.
  unfold mbind at 1. unfold M_bind at 1. unfold get_self.
  unfold mbind at 1. unfold M_bind at 1. unfold lift at 1. rewrite Hcut.
  unfold mbind at 1. unfold M_bind at 1. rewrite downsample_loop_spec.
  change (Nat.iter (vmip - mip cfg) (halve w) (transpose3 0 zyx)) with checked.
  change (os_path_join (output_layer_path cfg) "error") with (error_log cfg).
  unfold _upload_log.
  unfold mbind, M_bind, emit, get_self, lift, assert, mret, M_ret,
    raise, reference_check, rbind.
  cbn [self trace fst snd]. fold clamped. fold n.
  unfold sampled, publication, reference, name. clearbody checked clamped.
  destruct (validate_by_template_matching w checked).
  - destruct (cutout_validate w _) as [xyzc|e];
      [destruct (dim3 xyzc =? 1)%nat;
       [destruct (np_alltrue_eq w (squeeze3 0 xyzc) checked)|]|];
      cbn [self trace fst snd]; rewrite <- ?app_assoc; reflexivity.
  - destruct (put_file w (error_log cfg) _) as [[]|e];
      [destruct (cutout_validate w _) as [xyzc|e];
       [destruct (dim3 xyzc =? 1)%nat;
        [destruct (np_alltrue_eq w (squeeze3 0 xyzc) checked)|]|]|];
      cbn [self trace fst snd]; rewrite <- ?app_assoc; reflexivity.
Qed.

Lemma puts_halvings (n : nat) : puts (halvings n) = [].
Proof. by induction n. Qed.

Lemma downsample_factors_halvings (n : nat) :
  downsample_factors (halvings n) = replicate n (2, 2, 1).
Proof. induction n as [|n IH]; [done|]. cbn. by rewrite <- IH. Qed.

(** The validation publishes the log at most once, at the error path. *)
Lemma stage_validate_image :
  stage (_validate_image val cfg w)
        (fun b _ evs => at_most_error_put cfg w b (puts evs)).
Proof.
  intros st.
  destruct (image_validate_mip cfg) as [vmip|] eqn:Hv.
  - destruct (offset_cutout w (image (self st))
                (rev (clamped_slices cfg w vmip (image (self st)))))
      as [zyx|e] eqn:Hcut.
    + rewrite (validate_image_after_cutout st vmip zyx Hv Hcut).
      destruct (validate_by_template_matching w _);
        [|destruct (put_file w (error_log cfg) _)];
        cbn [fst snd self trace]; (split; [done|]);
        rewrite <- !app_assoc;
        eexists; (split; [reflexivity|]); rewrite !puts_app, puts_halvings;
        [by left|by right|by right].
    + unfold _validate_image. rewrite Hv.
      unfold mbind, M_bind, get_self, lift. rewrite Hcut. cbn [fst snd].
      split; [done|]. exists []. split; [by rewrite app_nil_r|by left].
  - unfold _validate_image. rewrite Hv. cbn.
    split; [done|]. exists []. split; [by rewrite app_nil_r|by left].
Qed.

(** The upload of the log is one put, under the file name of the box. *)
Lemma stage_upload_log (log_path : string) :
  stage (_upload_log val w log_path)
        (fun b r evs =>
           (exists keys, evs = [EvPutFile log_path (to_filename w b) keys]) /\
           r = put_file w log_path (to_filename w b)).
Proof.
  intros st. unfold _upload_log, mbind, M_bind, get_self, emit, lift.
  cbn [fst snd self trace]. split; [done|].
  eexists. split; [reflexivity|]. split; [by eexists|done].
Qed.

Lemma ends_quiet_bind {A : Type} (m : M val A) (k : A -> M val unit)
    (before : bbox -> list (string * string) -> Prop) :
  (forall b, before b []) ->
  quiet m ->
  (forall a, stage (k a) (ends_in_log cfg w before)) ->
  stage (m ≫= k) (ends_in_log cfg w before).
Proof.
  intros Hnil Hm Hk.
  apply (stage_bind m k _ (fun _ => ends_in_log cfg w before) _ Hm Hk).
  - intros b e evs Hq. left. exists e. split; [done|]. rewrite Hq. apply Hnil.
  - intros b a evs1 r evs2 Hq [(e & -> & Hbefore)|(evs0 & keys & -> & Hbefore & ->)].
    + left. exists e. split; [done|]. by rewrite puts_app, Hq.
    + right. exists (evs1 ++ evs0), keys.
      split_and!; [by rewrite app_assoc| |done]. by rewrite puts_app, Hq.
Qed.

Lemma ends_validate_bind (k : unit -> M val unit) :
  (forall a, stage (k a) (ends_in_log cfg w no_put)) ->
  stage (_validate_image val cfg w ≫= k)
        (ends_in_log cfg w (at_most_error_put cfg w)).
Proof.
  intros Hk.
  apply (stage_bind _ k _ (fun _ => ends_in_log cfg w no_put) _
           stage_validate_image Hk).
  - intros b e evs Hv. left. by exists e.
  - intros b a evs1 r evs2 Hv [(e & -> & Hnone)|(evs0 & keys & -> & Hnone & ->)];
      unfold no_put in Hnone.
    + left. exists e. split; [done|]. by rewrite puts_app, Hnone, app_nil_r.
    + right. exists (evs1 ++ evs0), keys.
      split_and!; [by rewrite app_assoc| |done].
      by rewrite puts_app, Hnone, app_nil_r.
Qed.

Lemma ends_upload_log :
  stage (_upload_log val w (os_path_join (output_layer_path cfg) "log"))
        (ends_in_log cfg w no_put).
Proof.
  eapply stage_weaken; [apply stage_upload_log|].
  intros b r evs [[keys ->] ->]. right. by exists [], keys.
Qed.

(** The stages below the mask test: a stage raises, or the log is put
    at the success path as the very last event; before that the only
    possible publication is the one of the validation. *)
Lemma stage_after_mask :
  stage (after_mask val val_nonzero val_mul cfg w)
        (ends_in_log cfg w (at_most_error_put cfg w)).
Proof.
  unfold after_mask, from_mask_test.
  apply ends_quiet_bind; [by left|apply quiet_read_image|intros _].
  apply ends_quiet_bind; [by left|apply quiet_log_key|intros _].
  apply ends_validate_bind; intros _.
  apply ends_quiet_bind; [done|apply quiet_log_key|intros _].
  apply ends_quiet_bind; [done|apply quiet_mask_missing_sections|intros _].
  apply ends_quiet_bind; [done|apply quiet_log_key|intros _].
  apply ends_quiet_bind; [done|apply quiet_inference|intros _].
  apply ends_quiet_bind; [done|apply quiet_log_key|intros _].
  apply ends_quiet_bind; [done|apply quiet_crop|intros _].
  apply ends_quiet_bind; [done|apply quiet_log_key|intros _].
  apply ends_quiet_bind; [done|apply quiet_get_self|intros s].
  apply ends_quiet_bind; [done|apply quiet_lift|intros masked].
  apply ends_quiet_bind; [done| |intros _].
  { destruct masked; [|apply quiet_ret].
    apply quiet_bind; [apply quiet_mask_output|intros _; apply quiet_log_key]. }
  apply ends_quiet_bind; [done|apply quiet_upload_output|intros _].
  apply ends_quiet_bind; [done|apply quiet_log_key|intros _].
  apply ends_quiet_bind; [done|apply quiet_create_output_thumbnail|intros _].
  apply ends_quiet_bind; [done|apply quiet_log_key|intros _].
  apply ends_quiet_bind; [done|apply quiet_log_key|intros _].
  apply ends_upload_log.
Qed.

(** One invocation: the early exit on a black mask, a failed mask
    fetch, or the stages below the mask test. *)
Lemma call_outcome (box : bbox) (st : St val) :
  exists evs, trace (call box st).2 = trace st ++ evs /\
    ((exists m, cutout_mask w (mask_request cfg box) = Ok [m] /\
                mask_is_black (Some m) = true /\
                (call box st).1 = Ok tt /\ evs = [mask_read box]) \/
     (exists e, (call box st).1 = Raise e /\ evs = [mask_read box]) \/
     (exists pre mid,
        evs = pre ++ mid /\ (pre = [] \/ pre = [mask_read box]) /\
        ends_in_log cfg w (at_most_error_put cfg w) box (call box st).1 mid)).
Proof.
  destruct box as [[sz sy] sx].
  unfold __call__, _read_output_mask, mask_request.
  unfold mbind, M_bind, modify, get_self, emit, lift, log_key.
  cbn -[after_mask mask_is_black Nat.pow].
  destruct (str_truthy (output_mask_layer_path cfg));
    cbn -[after_mask mask_is_black Nat.pow].
  - destruct (cutout_mask w _) as [czyx|e] eqn:Hcut;
      cbn -[after_mask mask_is_black Nat.pow];
      [destruct czyx as [|m [|m' czyx]];
       cbn -[after_mask mask_is_black Nat.pow]|];
      try (eexists; split; [reflexivity|]; right; left; by eexists).
    destruct (mask_is_black (Some m)) eqn:Hblack.
    + eexists. split; [reflexivity|]. left. by exists m.
    + match goal with
      | |- context [after_mask _ _ _ _ _ ?s] =>
          destruct (stage_after_mask s) as (_ & mid & Htr & Hend)
      end.
      cbn [self trace output_bbox with_log with_mask with_mask_geometry
           with_bbox] in Htr, Hend.
      exists ([mask_read (sz, sy, sx)] ++ mid). split.
      * rewrite Htr. by rewrite <- app_assoc.
      * right; right. eexists _, mid. split; [reflexivity|]. split; [by right|done].
  - change (mask_is_black None) with false. cbv iota.
    match goal with
    | |- context [after_mask _ _ _ _ _ ?s] =>
        destruct (stage_after_mask s) as (_ & mid & Htr & Hend)
    end.
    cbn [self trace output_bbox with_log with_mask with_mask_geometry
         with_bbox] in Htr, Hend.
    exists mid. split; [done|].
    right; right. exists [], mid. split; [done|]. split; [by left|done].
Qed.

(** C8.  Once the clamped region is cut out, the validation stage
    applies the downsampling with the factor (2, 2, 1) exactly
    [image_validate_mip - mip] times in succession, each time to the
    result of the previous step, before the template matching sees the
    image; every downsampling call of the stage has that factor, so the
    depth axis is never reduced and no step uses a larger factor. *)
Theorem validate_image_halves_step_by_step (st : St val) (vmip : nat)
    (zyx : arr3 Z) :
  image_validate_mip cfg = Some vmip ->
  offset_cutout w (image (self st))
    (rev (clamped_slices cfg w vmip (image (self st)))) = Ok zyx ->
  let n := (vmip - mip cfg)%nat in
  let halved :=
    Nat.iter n (fun a => downsample_with_averaging w a (2, 2, 1))
             (transpose3 0 zyx) in
  downsample_loop val w n (transpose3 0 zyx) st =
    (Ok halved, {| self := self st;
                   trace := trace st ++ replicate n (EvDownsample (2, 2, 1)) |}) /\
  exists rest,
    trace (_validate_image val cfg w st).2 =
      trace st ++ replicate n (EvDownsample (2, 2, 1))
               ++ EvTemplateMatching halved :: rest /\
    downsample_factors
      (replicate n (EvDownsample (2, 2, 1)) ++ EvTemplateMatching halved :: rest)
    = replicate n (2, 2, 1).
Proof.
  intros Hv Hcut n halved. split; [apply downsample_loop_spec|].
  rewrite (validate_image_after_cutout st vmip zyx Hv Hcut).
  fold n. change (checked_image cfg w vmip zyx) with halved.
  assert (forall rest : list (event val),
    downsample_factors rest = [] ->
    downsample_factors (halvings n ++ EvTemplateMatching halved :: rest)
    = replicate n (2, 2, 1)) as Hfactors.
  { intros rest Hrest. unfold downsample_factors in *.
    rewrite omap_app. fold (downsample_factors (halvings n)).
    rewrite downsample_factors_halvings. cbn. rewrite Hrest.
    by rewrite app_nil_r. }
  destruct (validate_by_template_matching w halved);
    [|destruct (put_file w (error_log cfg) _)];
    cbn [snd trace]; rewrite <- !app_assoc;
    eexists; (split; [reflexivity|]); by apply Hfactors.
Qed.

(** C3 (as amended).  An invocation publishes the log at most twice: at
    most once at the error path, by the validation stage, and at most
    once at the success path, as the very last event of the invocation,
    whose result is then the result of that put. *)
Theorem log_published_at_most_twice (box : bbox) (st : St val) :
  exists evs, trace (call box st).2 = trace st ++ evs /\
    exists before_end at_end,
      puts evs = before_end ++ at_end /\
      (before_end = [] \/
       before_end = [(error_log cfg, to_filename w box)]) /\
      (at_end = [] \/
       at_end = [(success_log cfg, to_filename w box)] /\
       (exists evs0 keys,
          evs = evs0 ++ [EvPutFile (success_log cfg) (to_filename w box) keys]) /\
       (call box st).1 = put_file w (success_log cfg) (to_filename w box)) /\
      (length (puts evs) <= 2)%nat.
Proof.
  destruct (call_outcome box st) as (evs & Htr & Hcases).
  exists evs. split; [done|].
  destruct Hcases as [(m & _ & _ & _ & ->)|[(e & _ & ->)|(pre & mid & -> & Hpre & Hend)]].
  - exists [], []. split_and!; [done|by left|by left|cbn; lia].
  - exists [], []. split_and!; [done|by left|by left|cbn; lia].
  - assert (puts pre = []) as Hquiet by (by destruct Hpre as [->| ->]).
    rewrite puts_app, Hquiet. cbn [app].
    destruct Hend as [(e & Hr & Hbefore)|(evs0 & keys & -> & Hbefore & Hr)].
    + exists (puts mid), []. rewrite app_nil_r.
      split_and!; [done|done|by left|].
      by destruct Hbefore as [-> | ->]; cbn; lia.
    + exists (puts evs0), [(success_log cfg, to_filename w box)].
      rewrite puts_app. split_and!; [done|done| |].
      * right. split_and!; [done| |done].
        exists (pre ++ evs0), keys. by rewrite app_assoc.
      * rewrite length_app. by destruct Hbefore as [-> | ->]; cbn; lia.
Qed.

(** C4.  When the template matching reports failure, the validation
    stage puts the log at [<output_layer_path>/error] under the file name
    of the output bounding box and goes on: the reference is read next
    and the stage ends as it would for a healthy image, with the result
    of the comparison with the reference.  An invocation that returns
    normally, other than by the early exit on a black mask, ends with the
    put of the log at [<output_layer_path>/log] under the same file
    name. *)
Theorem log_goes_to_error_or_log_path :
  (forall (st : St val) (vmip : nat) (zyx : arr3 Z),
     image_validate_mip cfg = Some vmip ->
     offset_cutout w (image (self st))
       (rev (clamped_slices cfg w vmip (image (self st)))) = Ok zyx ->
     validate_by_template_matching w (checked_image cfg w vmip zyx) = false ->
     put_file w (os_path_join (output_layer_path cfg) "error")
              (to_filename w (output_bbox (self st))) = Ok tt ->
     let clamped := clamped_slices cfg w vmip (image (self st)) in
     _validate_image val cfg w st =
       (reference_check cfg w vmip clamped (checked_image cfg w vmip zyx),
        {| self := self st;
           trace := trace st ++ replicate (vmip - mip cfg) (EvDownsample (2, 2, 1))
             ++ [EvTemplateMatching (checked_image cfg w vmip zyx);
                 EvPutFile (os_path_join (output_layer_path cfg) "error")
                           (to_filename w (output_bbox (self st)))
                           (log (self st));
                 EvReadVolume (image_layer_path cfg) vmip
                              (bbox_to_mip w clamped (mip cfg) vmip)] |})) /\
  (forall (box : bbox) (st : St val),
     (call box st).1 = Ok tt ->
     (forall m, cutout_mask w (mask_request cfg box) = Ok [m] ->
                mask_is_black (Some m) = false) ->
     exists evs0 keys,
       trace (call box st).2 =
         trace st ++ evs0
           ++ [EvPutFile (os_path_join (output_layer_path cfg) "log")
                         (to_filename w box) keys]).
Proof.
  split.
  - intros st vmip zyx Hv Hcut Hbad Hput clamped.
    rewrite (validate_image_after_cutout st vmip zyx Hv Hcut).
    rewrite Hbad. unfold error_log. rewrite Hput.
    by rewrite <- !app_assoc.
  - intros box st Hok Hmask.
    destruct (call_outcome box st) as (evs & Htr & Hcases).
    destruct Hcases as [(m & Hcut & Hblack & _)|[(e & Hr & _)|(pre & mid & -> & Hpre & Hend)]].
    + rewrite (Hmask m Hcut) in Hblack. discriminate.
    + rewrite Hok in Hr. discriminate.
    + destruct Hend as [(e & Hr & _)|(evs0 & keys & -> & _ & _)].
      * rewrite Hok in Hr. discriminate.
      * exists (pre ++ evs0), keys. rewrite Htr. by rewrite <- !app_assoc.
Qed.

End Orchestrator.

(** ** The claims on sample inputs *)

Section SampleRuns.

Import Fixtures.

Local Abbreviation run0 mask healthy :=
  (run Z nonzero Z.mul cfg0 (world0 mask healthy) box0).

(** A black mask: the invocation stops after the fetch. *)
Lemma black_mask_returns_after_fetch_witness :
  exists st',
    __call__ Z nonzero Z.mul cfg0 (world0 [[[0]]] true) box0 (fresh Z)
      = (Ok tt, st') /\
    trace st' = [EvReadVolume "gs://mask" 2 [(0, 1); (0, 1); (11, 13)]].
Proof.
  destruct (black_mask_returns_after_fetch nonzero Z.mul cfg0
              (world0 [[[0]]] true) box0 (fresh Z) [[[0]]])
    as (st' & Hcall & Htrace & _); [by vm_compute..|].
  exists st'. split; [exact Hcall | exact Htrace].
Defined.

(** C2, where the code departs from it.  The truth value of a fetched
    mask with more than one element is not defined: the test
    [if self.output_mask:] raises ValueError, whatever the state the
    invocation has reached, and nothing is done after it.  On the sample
    input with a mask of two elements, one of them nonzero, the invocation
    comes to the test after the crop and aborts there: the mask is not
    applied, and neither the output nor the log is published. *)
Theorem mask_test_raises_on_array :
  (forall m : arr3 Z, (1 < size3 m)%nat ->
     mask_truth (Some m) = Raise ValueError /\
     forall (cfg : Config) (w : World Z) (st : St Z),
       output_mask (self st) = Some m ->
       from_mask_test Z nonzero Z.mul cfg w st = (Raise ValueError, st)) /\
  run0 [[[1; 0]]] true =
    (Raise ValueError,
     [EvReadVolume "gs://mask" 2 [(0, 1); (0, 1); (11, 13)];
      EvReadVolume "gs://img" 1 [(-1, 3); (-1, 3); (10, 14)];
      EvDownsample (2, 2, 1);
      EvTemplateMatching (transpose3 0 image0);
      EvReadVolume "gs://img" 2 [(0, 2); (0, 2); (11, 14)];
      EvLoadTxt "ids.txt";
      EvInference]).
Proof.
  split; [|by vm_compute].
  intros m Hm.
  assert (mask_truth (Some m) = Raise ValueError) as Htruth.
  { unfold mask_truth, truth_value, size3 in *.
    destruct (concat (concat m)) as [|x [|y rest]]; cbn in Hm; [lia|lia|done]. }
  split; [done|]. intros cfg w st Hmask.
  unfold from_mask_test, mbind, M_bind, get_self, lift.
  by rewrite Hmask, Htruth.
Qed.

Lemma mask_test_raises_on_array_witness :
  mask_truth (Some [[[1; 0]]]) = Raise ValueError.
Proof.
  apply (proj1 mask_test_raises_on_array [[[1; 0]]]). vm_compute. lia.
Defined.

(** C3 (as stated) fails: when the template matching reports failure
    and every stage succeeds, the log is published twice, the first time
    in the middle of the invocation. *)
Lemma log_published_twice :
  puts (run0 [[[1]]] false).2 =
    [("gs://out/error", "11-13_0-2_0-2"); ("gs://out/log", "11-13_0-2_0-2")] /\
  ~ (length (puts (run0 [[[1%Z]]] false).2) <= 1)%nat.
Proof. split; [by vm_compute|]. vm_compute. lia. Qed.

Lemma log_goes_to_error_or_log_path_witness :
  (_validate_image Z cfg0 (world0 [[[1]]] false) st_image).1 = Ok tt /\
  puts (trace (_validate_image Z cfg0 (world0 [[[1]]] false) st_image).2)
    = [("gs://out/error", "11-13_0-2_0-2")] /\
  exists evs0 keys,
    trace (__call__ Z nonzero Z.mul cfg0 (world0 [[[1]]] false) box0
             (fresh Z)).2 =
      evs0 ++ [EvPutFile "gs://out/log" "11-13_0-2_0-2" keys].
Proof.
  destruct (log_goes_to_error_or_log_path nonzero Z.mul cfg0
              (world0 [[[1]]] false)) as [Hstage Hrun].
  pose proof (Hstage st_image 2%nat image0 ltac:(by vm_compute)
                ltac:(by vm_compute) ltac:(by vm_compute) ltac:(by vm_compute))
    as Hs.
  split_and!.
  - rewrite Hs. by vm_compute.
  - rewrite Hs. by vm_compute.
  - destruct (Hrun box0 (fresh Z)) as (evs0 & keys & Htrace).
    + by vm_compute.
    + intros m Hm. injection Hm as <-. by vm_compute.
    + exists evs0, keys. rewrite Htrace. by vm_compute.
Defined.

Lemma validate_image_halves_step_by_step_witness :
  exists rest,
    trace (_validate_image Z cfg0 (world0 [[[1]]] true) st_image).2 =
      [EvDownsample (2, 2, 1); EvTemplateMatching (transpose3 0 image0)] ++ rest.
Proof.
  destruct (validate_image_halves_step_by_step cfg0 (world0 [[[1]]] true)
              st_image 2%nat image0 ltac:(by vm_compute) ltac:(by vm_compute))
    as (_ & rest & Htrace & _).
  exists rest. rewrite Htrace. by vm_compute.
Defined.

(** A mask without a zero, at a factor that does not fit the output, and
    an output without a nonzero value: both leave the stage at once. *)
Lemma mask_output_short_circuits_witness :
  _mask_output Z nonzero Z.mul (st_mask [[[1; 1]]] 3 out4)
    = (Ok tt, st_mask [[[1; 1]]] 3 out4) /\
  upsample Z 3 [[[1; 1]]] out4 = Raise ValueError /\
  _mask_output Z nonzero Z.mul (st_mask half_mask 2 [[[[0; 0]]]])
    = (Ok tt, st_mask half_mask 2 [[[[0; 0]]]]).
Proof.
  split_and!.
  - apply (proj1 (mask_output_short_circuits nonzero Z.mul
                    (st_mask [[[1; 1]]] 3 out4))). by vm_compute.
  - by vm_compute.
  - apply (proj2 (mask_output_short_circuits nonzero Z.mul
                    (st_mask half_mask 2 [[[[0; 0]]]]))). by vm_compute.
Defined.

(** The upsampling replicates every element of the coarse mask into a
    block of [f] by [f] voxels of its section. *)
Example upsample_replicates_blocks :
  upsample Z 2 [[[1; 0]; [0; 1]]] [[replicate 4 [9; 9; 9; 9]]]
  = Ok [[[1; 1; 0; 0]; [1; 1; 0; 0]; [0; 0; 1; 1]; [0; 0; 1; 1]]].
Proof. by vm_compute. Qed.

(** Four channels under a half-resolution mask: the fourth is kept. *)
Lemma mask_output_first_three_channels_witness :
  exists r st',
    _mask_output Z nonzero Z.mul (st_mask half_mask 2 out4) = (r, st') /\
    r = Ok tt /\
    output (self st') !! 3%nat = out4 !! 3%nat /\
    output (self st') !! 0%nat = Some [[[1; 2; 0; 0]; [5; 6; 0; 0]]].
Proof.
  destruct (mask_output_first_three_channels nonzero Z.mul
              (st_mask half_mask 2 out4))
    as (r & st' & Hrun & _ & _ & Hof & _ & Hframe & _); [by vm_compute..|].
  exists r, st'. split; [exact Hrun|].
  assert (r = Ok tt /\
          output (self st') = replicate 3 [[[1; 2; 0; 0]; [5; 6; 0; 0]]]
                                ++ [[[[1; 2; 3; 4]; [5; 6; 7; 8]]]])
    as [Hr Hout].
  { assert (mask_output_of Z nonzero Z.mul (Some half_mask) 2 out4
            = (Ok tt, replicate 3 [[[1; 2; 0; 0]; [5; 6; 0; 0]]]
                        ++ [[[[1; 2; 3; 4]; [5; 6; 7; 8]]]])) as Hval
      by (by vm_compute).
    change (output_mask (self (st_mask half_mask 2 out4))) with (Some half_mask) in Hof.
    change (xyfactor (self (st_mask half_mask 2 out4))) with 2%nat in Hof.
    change (output (self (st_mask half_mask 2 out4))) with out4 in Hof.
    rewrite Hval in Hof. by injection Hof as <- <-. }
  split_and!; [exact Hr|apply Hframe; lia|by rewrite Hout].
Defined.

(** A buffer of shape (1, 3, 4, 5) under the configured margin (1, 1, 1). *)
Lemma crop_keeps_interior_witness :
  exists st',
    _crop Z cfg0 (st_mask half_mask 2 [replicate 3 (replicate 4 [1; 2; 3; 4; 5])])
      = (Ok tt, st') /\
    has_shape4 1 1 2 3 (output (self st')) /\
    get4 (output (self st')) 0 0 1 0 = Some 2.
Proof.
  destruct (proj1 (crop_keeps_interior cfg0
                     (st_mask half_mask 2
                        [replicate 3 (replicate 4 [1; 2; 3; 4; 5])]))
              1%nat 1%nat 2%nat 3%nat 1%nat 1%nat 1%nat)
    as (st' & Hrun & _ & _ & Hshape & Hvoxel).
  - reflexivity.
  - split; [reflexivity|]. repeat constructor.
  - exists st'. split; [exact Hrun|]. split; [exact Hshape|].
    destruct (Hvoxel 0 0 1 0)%nat as [Hget _]; [lia..|].
    etrans; [exact Hget|]. by vm_compute.
Defined.

End SampleRuns.

(** * Further properties of the queue *)

Section QueueDelivery.

Variable md5_hexdigest : string -> string.
Variable wait_if_empty : option Z.
Variable receive_message : nat -> option SQS.message.

Local Abbreviation next_from := (SQS.next_from md5_hexdigest wait_if_empty receive_message).
Local Abbreviation wait := (SQS.wait_seconds wait_if_empty).
Local Abbreviation retries k := (concat (replicate k [SQS.Receive; SQS.Sleep wait])).

Lemma total_wait_app (a b : list SQS.action) :
  SQS.total_wait (a ++ b) = SQS.total_wait a + SQS.total_wait b.
Proof.
  induction a as [|[|s] a IH]; cbn [app SQS.total_wait]; [done|done|].
  rewrite IH. lia.
Qed.

Lemma next_from_first_message (k : nat) : forall (n depth : nat) (m : SQS.message),
  (forall i, (i < k)%nat -> receive_message (n + i) = None) ->
  receive_message (n + k) = Some m ->
  SQS.MD5OfBody m = md5_hexdigest (SQS.Body m) ->
  (k = 0%nat \/ (SQS.truthy wait_if_empty = true /\ 0 <= wait)) ->
  (k < depth)%nat ->
  next_from depth n =
    (retries k ++ [SQS.Receive], Ok (SQS.ReceiptHandle m, SQS.Body m)).
Proof.
  induction k as [|k IH]; intros n depth m Hnone Hsome Hmd5 Hwait Hdepth.
  - destruct depth as [|depth]; [lia|]. cbn [SQS.next_from].
    replace (n + 0)%nat with n in Hsome by lia. rewrite Hsome, Hmd5.
    by rewrite String.eqb_refl.
  - destruct depth as [|depth]; [lia|].
    destruct Hwait as [?|[Hw Hpos]]; [lia|].
    cbn [SQS.next_from].
    rewrite <- (Nat.add_0_r n) at 1. rewrite (Hnone 0%nat) by lia. rewrite Hw.
    destruct (Z.ltb_spec wait 0) as [?|_]; [lia|].
    rewrite (IH (S n) depth m); [done| |by rewrite Nat.add_succ_comm|done|by right|lia].
    intros i Hi. rewrite Nat.add_succ_comm. apply Hnone. lia.
Qed.

(** X1.  When the first [k] polls find the queue empty and the next one
    finds a message whose checksum matches, [next()] returns the handle
    and the body of that message after [k] sleeps of [wait_if_empty]
    seconds, provided the wait is nonzero and not negative (or [k] is
    zero) and the recursion limit leaves more than [k] frames. *)
Theorem next_returns_first_message (k depth : nat) (m : SQS.message) :
  (forall i, (i < k)%nat -> receive_message i = None) ->
  receive_message k = Some m ->
  SQS.MD5OfBody m = md5_hexdigest (SQS.Body m) ->
  (k = 0%nat \/ (SQS.truthy wait_if_empty = true /\ 0 <= wait)) ->
  (k < depth)%nat ->
  SQS.__next__ md5_hexdigest wait_if_empty receive_message depth =
    (retries k ++ [SQS.Receive], Ok (SQS.ReceiptHandle m, SQS.Body m)) /\
  SQS.total_wait
    (SQS.__next__ md5_hexdigest wait_if_empty receive_message depth).1
  = Z.of_nat k * wait.
Proof.
  intros Hnone Hsome Hmd5 Hwait Hdepth. unfold SQS.__next__.
  rewrite (next_from_first_message k 0 depth m) by done.
  split; [done|]. cbn [fst]. rewrite total_wait_app, total_wait_retries.
  cbn. lia.
Qed.

Lemma next_from_sound (depth : nat) : forall (n : nat) acts handle body,
  next_from depth n = (acts, Ok (handle, body)) ->
  exists (k : nat) (m : SQS.message),
    (forall i, (i < k)%nat -> receive_message (n + i) = None) /\
    receive_message (n + k) = Some m /\
    SQS.MD5OfBody m = md5_hexdigest (SQS.Body m) /\
    handle = SQS.ReceiptHandle m /\ body = SQS.Body m /\
    acts = retries k ++ [SQS.Receive].
Proof.
  induction depth as [|depth IH]; intros n acts handle body H; [done|].
  cbn [SQS.next_from] in H.
  destruct (receive_message n) as [m|] eqn:Hn.
  - destruct (String.eqb_spec (SQS.MD5OfBody m) (md5_hexdigest (SQS.Body m)))
      as [Hmd5|_]; [|done].
    injection H as <- <- <-. exists 0%nat, m.
    rewrite Nat.add_0_r. split_and!; try done. intros i Hi. lia.
  - destruct (SQS.truthy wait_if_empty); [|done].
    destruct (wait <? 0); [done|].
    destruct (next_from depth (S n)) as [acts' r] eqn:Hrec.
    injection H as <- ->.
    destruct (IH _ _ _ _ Hrec) as (k & m & Hnone & Hsome & Hmd5 & -> & -> & ->).
    exists (S k), m. rewrite <- Nat.add_succ_comm.
    split_and!; try done.
    intros [|i] Hi; [by rewrite Nat.add_0_r|].
    rewrite <- Nat.add_succ_comm. apply Hnone. lia.
Qed.

(** X2.  Whatever the queue answers, a pair returned by [next()] is the
    handle and the body of the first message the queue delivered, and the
    checksum of that message matched its body: a message whose checksum
    does not match is never handed to the caller. *)
Theorem next_returns_only_checked_messages (depth : nat) acts handle body :
  SQS.__next__ md5_hexdigest wait_if_empty receive_message depth
    = (acts, Ok (handle, body)) ->
  exists (k : nat) (m : SQS.message),
    (forall i, (i < k)%nat -> receive_message i = None) /\
    receive_message k = Some m /\
    SQS.MD5OfBody m = md5_hexdigest (SQS.Body m) /\
    handle = SQS.ReceiptHandle m /\ body = SQS.Body m /\
    acts = retries k ++ [SQS.Receive].
Proof. intros H. by apply next_from_sound in H. Qed.

End QueueDelivery.

Section QueueSending.

Variable batch_failed : nat -> list SQS.entry -> bool.

Local Abbreviation send_loop := (SQS.send_loop batch_failed).
Local Abbreviation entries_of := (map SQS.entry_of).

(** What the loop has done when it ends: the batches it sent are full,
    they and the entries left over are the entries of the messages, in
    order; every batch but a failed last one was accepted. *)
Lemma send_loop_spec (message_list : list string) :
  forall (sent : nat) (task_entries : list SQS.entry) batches r,
  (length task_entries < 10)%nat ->
  send_loop sent message_list task_entries = (batches, r) ->
  Forall (fun b => length b = 10%nat) batches /\
  match r with
  | Ok left_over =>
      concat batches ++ left_over = task_entries ++ entries_of message_list /\
      (length left_over < 10)%nat /\
      (forall i b, batches !! i = Some b -> batch_failed (sent + i) b = false)
  | Raise e =>
      e = AssertionError /\
      exists accepted b not_sent,
        batches = accepted ++ [b] /\
        concat batches ++ not_sent = task_entries ++ entries_of message_list /\
        batch_failed (sent + length accepted) b = true /\
        (forall i b', accepted !! i = Some b' ->
                      batch_failed (sent + i) b' = false)
  end.
Proof.
  induction message_list as [|message rest IH];
    intros sent task_entries batches r Hlen H; cbn [SQS.send_loop] in H.
  - injection H as <- <-. split; [constructor|].
    cbn. rewrite app_nil_r. split_and!; [done|done|]. intros i b Hb. done.
  - destruct (Nat.eqb_spec (length (task_entries ++ [SQS.entry_of message])) 10)
      as [Hfull|Hroom].
    + destruct (batch_failed sent (task_entries ++ [SQS.entry_of message]))
        eqn:Hfail.
      * injection H as <- <-. split; [by repeat constructor|].
        split; [done|]. exists [], (task_entries ++ [SQS.entry_of message]), (entries_of rest).
        cbn [app concat length]. rewrite Nat.add_0_r, app_nil_r.
        split_and!; [done|by rewrite <- app_assoc|done|done].
      * destruct (send_loop (S sent) rest []) as [batches' r'] eqn:Hrec.
        injection H as <- <-.
        destruct (IH (S sent) [] batches' r' ltac:(cbn; lia) Hrec) as [Hfull' Hr].
        split; [by constructor|].
        destruct r' as [left_over|e].
        -- destruct Hr as (Hcat & Hleft & Hacc). cbn [app] in Hcat.
           split_and!; [|done|].
           ++ cbn [concat]. rewrite <- !app_assoc. cbn [app map]. by rewrite Hcat.
           ++ intros [|i] b Hb.
              ** injection Hb as <-. by rewrite Nat.add_0_r.
              ** rewrite <- Nat.add_succ_comm. by apply Hacc.
        -- destruct Hr as (-> & accepted & b & not_sent & -> & Hcat & Hbad & Hacc).
           cbn [app] in Hcat. split; [done|].
           exists ((task_entries ++ [SQS.entry_of message]) :: accepted), b, not_sent.
           split_and!; [done| | |].
           ++ cbn [app concat]. rewrite <- !app_assoc. cbn [app map].
              by rewrite Hcat.
           ++ cbn [length]. by rewrite <- Nat.add_succ_comm.
           ++ intros [|i] b' Hb'.
              ** injection Hb' as <-. by rewrite Nat.add_0_r.
              ** rewrite <- Nat.add_succ_comm. by apply Hacc.
    + rewrite length_app in Hroom. cbn [length] in Hroom.
      destruct (IH sent (task_entries ++ [SQS.entry_of message]) batches r) as [Hfull' Hr].
      { rewrite length_app. cbn [length]. lia. }
      { done. }
      split; [done|]. cbn [map]. rewrite <- app_assoc in Hr. cbn [app] in Hr.
      destruct r as [left_over|e]; [done|].
      destruct Hr as (-> & accepted & b & not_sent & -> & Hcat & Hbad & Hacc).
      split; [done|]. by exists accepted, b, not_sent.
Qed.

Lemma length_concat_full (batches : list (list SQS.entry)) :
  Forall (fun b => length b = 10%nat) batches ->
  length (concat batches) = (10 * length batches)%nat.
Proof.
  induction 1 as [|b batches Hb _ IH]; [done|].
  cbn [concat length]. rewrite length_app, Hb, IH. lia.
Qed.

(** X3.  When the queue accepts every batch, [send_message_list] sends
    the entries of all the messages, in their order and each once, in
    batches of ten with a last batch of one to ten entries; for [n]
    messages that is the ceiling of [n / 10] batches, and none for an
    empty list. *)
Theorem send_message_list_batches_of_ten (message_list : list string) :
  (forall n b, batch_failed n b = false) ->
  exists batches,
    SQS.send_message_list batch_failed message_list = (batches, Ok tt) /\
    concat batches = entries_of message_list /\
    Forall (fun b => (0 < length b <= 10)%nat) batches /\
    (forall i b, batches !! i = Some b -> (S i < length batches)%nat ->
                 length b = 10%nat) /\
    length batches = ((length message_list + 9) / 10)%nat.
Proof.
  intros Hok. unfold SQS.send_message_list.
  destruct (send_loop 0 message_list []) as [full r] eqn:Hloop.
  destruct (send_loop_spec message_list 0 [] full r ltac:(cbn; lia) Hloop)
    as [Hfull Hr].
  destruct r as [left_over|e];
    [|destruct Hr as (_ & accepted & b & not_sent & _ & _ & Hbad & _);
      by rewrite Hok in Hbad].
  destruct Hr as (Hcat & Hleft & _). cbn [app] in Hcat.
  assert (length message_list = (10 * length full + length left_over)%nat) as Hn.
  { rewrite <- (length_map SQS.entry_of), <- Hcat, length_app.
    by rewrite length_concat_full. }
  assert (Forall (fun b : list SQS.entry => (0 < length b <= 10)%nat) full) as Hbounds.
  { eapply Forall_impl; [exact Hfull|]. intros b Hb. cbn beta in Hb. lia. }
  destruct left_over as [|x left_over].
  - exists full. rewrite app_nil_r in Hcat. split_and!; [done|done|done| |].
    + intros i b Hb _. by apply (Forall_lookup_1 _ _ _ _ Hfull Hb).
    + cbn [length] in Hn. rewrite Hn.
      apply (Nat.div_unique _ 10 _ 9); lia.
  - rewrite Hok. exists (full ++ [x :: left_over]).
    split_and!; [done| | | |].
    + rewrite concat_app. cbn [concat]. by rewrite app_nil_r.
    + apply Forall_app. split; [done|].
      apply Forall_cons. split; [cbn [length] in *; lia|constructor].
    + intros i b Hb Hi. rewrite length_app in Hi. cbn [length] in Hi.
      rewrite lookup_app_l in Hb by lia.
      by apply (Forall_lookup_1 _ _ _ _ Hfull Hb).
    + rewrite length_app. cbn [length] in *. rewrite Hn.
      apply (Nat.div_unique _ 10 _ (length left_over)); lia.
Qed.

(** X4.  [send_message_list] stops at the first batch the queue rejects:
    it raises AssertionError, the rejected batch is the last one handed to
    the queue, every batch before it was accepted, and the messages after
    it are never sent.  A call that returns has had every batch it handed
    over accepted, the last one included: a rejected batch always makes
    the call raise.  In every outcome the batches sent are a prefix of the
    entries of the messages, and when the call returns the prefix is the
    whole list. *)
Theorem send_message_list_stops_at_failure (message_list : list string)
    batches r :
  SQS.send_message_list batch_failed message_list = (batches, r) ->
  (exists not_sent,
     concat batches ++ not_sent = entries_of message_list /\
     (r = Ok tt -> not_sent = [])) /\
  (forall i b, batches !! i = Some b -> (S i < length batches)%nat ->
               batch_failed i b = false) /\
  (r = Ok tt ->
   forall i b, batches !! i = Some b -> batch_failed i b = false) /\
  (forall e, r = Raise e ->
     e = AssertionError /\
     exists accepted b,
       batches = accepted ++ [b] /\ batch_failed (length accepted) b = true).
Proof.
  unfold SQS.send_message_list.
  destruct (send_loop 0 message_list []) as [full r0] eqn:Hloop.
  destruct (send_loop_spec message_list 0 [] full r0 ltac:(cbn; lia) Hloop)
    as [Hfull Hr].
  destruct r0 as [left_over|e0].
  - destruct Hr as (Hcat & Hleft & Hacc). cbn [app] in Hcat.
    destruct left_over as [|x left_over].
    + intros H. injection H as <- <-. rewrite app_nil_r in Hcat.
      split_and!.
      * exists []. by rewrite app_nil_r.
      * intros i b Hb _. by apply (Hacc i b).
      * intros _ i b Hb. by apply (Hacc i b).
      * intros e He. done.
    + destruct (batch_failed (length full) (x :: left_over)) eqn:Hlast;
        intros H; injection H as <- <-.
      * split_and!.
        -- exists []. rewrite concat_app. cbn [concat].
           rewrite !app_nil_r. split; [done|done].
        -- intros i b Hb Hi. rewrite length_app in Hi. cbn [length] in Hi.
           rewrite lookup_app_l in Hb by lia. by apply (Hacc i b).
        -- intros He. discriminate He.
        -- intros e He. injection He as <-. split; [done|].
           by exists full, (x :: left_over).
      * split_and!.
        -- exists []. rewrite concat_app. cbn [concat].
           rewrite !app_nil_r. split; [done|done].
        -- intros i b Hb Hi. rewrite length_app in Hi. cbn [length] in Hi.
           rewrite lookup_app_l in Hb by lia. by apply (Hacc i b).
        -- intros _ i b Hb.
           destruct (decide (i < length full)%nat) as [Hi|Hi].
           ++ rewrite lookup_app_l in Hb by done. by apply (Hacc i b).
           ++ rewrite lookup_app_r in Hb by lia.
              destruct (i - length full)%nat as [|k] eqn:Hk; [|done].
              injection Hb as <-.
              by replace i with (length full) by lia.
        -- intros e He. done.
  - destruct Hr as (-> & accepted & b & not_sent & -> & Hcat & Hbad & Hacc).
    cbn [app] in Hcat. intros H. injection H as <- <-.
    split_and!.
    + exists not_sent. split; [done|done].
    + intros i b' Hb' Hi. rewrite length_app in Hi. cbn [length] in Hi.
      rewrite lookup_app_l in Hb' by lia. by apply (Hacc i b').
    + intros He. discriminate He.
    + intros e He. injection He as <-. split; [done|]. by exists accepted, b.
Qed.

End QueueSending.

(** * Further properties of the executor *)

(** ** The transpose handed to the store *)

Section Transposition.

Context {A : Type}.





End Transposition.


(** ** From the mask test to the log *)

Section Publishing.

Context {val : Type}.
Variable val_nonzero : val -> bool.
Variable val_mul : val -> Z -> val.
Variable cfg : Config.
Variable w : World val.

Local Abbreviation call := (__call__ val val_nonzero val_mul cfg w).
Local Abbreviation mask_test := (from_mask_test val val_nonzero val_mul cfg w).

Lemma all3_concat {A : Type} (p : A -> bool) (a : arr3 A) :
  all3 p a = forallb p (concat (concat a)).
Proof.
  unfold all3. induction a as [|plane a IH]; [done|].
  cbn [forallb concat]. rewrite concat_app, forallb_app, IH. f_equal.
  induction plane as [|row plane IHp]; [done|].
  cbn [forallb concat]. by rewrite forallb_app, IHp.
Qed.

(** A mask that passes the test [if self.output_mask:] has no zero. *)
Lemma mask_truth_all (m : option (arr3 Z)) :
  mask_truth m = Ok true -> np_all_mask m = true.
Proof.
  destruct m as [a|]; [|done]. unfold mask_truth, truth_value, np_all_mask.
  rewrite all3_concat.
  destruct (concat (concat a)) as [|x [|y rest]]; [done| |done].
  intros H. injection H as H. cbn. by rewrite H.
Qed.

(** The uploads at the end of [__call__]. *)
Lemma publish_spec (st : St val) :
  exists r st',
    (_upload_output val cfg w;;
     log_key "upload_output";;
     _create_output_thumbnail val cfg w;;
     log_key "create_output_thumbnail";;
     log_key "total_time";;
     _upload_log val w (os_path_join (output_layer_path cfg) "log")) st
    = (r, st') /\
    output (self st') = transpose4 (output (self st)) /\
    output_bbox (self st') = output_bbox (self st) /\
    exists evs, trace st' = trace st ++ evs /\
                publication cfg w (output_bbox (self st)) (output (self st)) r evs.
Proof.
  unfold publication, _upload_output, _create_output_thumbnail, _upload_log.
  unfold mbind, M_bind, get_self, emit, lift, log_key, modify, raise, mret, M_ret.
  cbn [self trace fst snd output output_bbox with_log with_output].
  destruct (write_volume w) as [[]|e].
  - destruct (dim3 (transpose4 (output (self st))) =? 0)%nat.
    + eexists _, _. split; [reflexivity|].
      cbn [self trace output output_bbox with_log with_output].
      split_and!; [done|done|]. eexists. split; [reflexivity|done].
    + destruct (downsample_and_upload w) as [[]|e].
      * eexists _, _. split; [reflexivity|].
        cbn [self trace output output_bbox with_log with_output].
        split_and!; [done|done|]. eexists. split; [by rewrite <- !app_assoc|].
        eexists. split; [reflexivity|done].
      * eexists _, _. split; [reflexivity|].
        cbn [self trace output output_bbox with_log with_output].
        split_and!; [done|done|]. eexists. split; [by rewrite <- !app_assoc|done].
  - eexists _, _. split; [reflexivity|].
    cbn [self trace output output_bbox with_output].
    split_and!; [done|done|]. eexists. split; [reflexivity|done].
Qed.

(** The stages from the test [if self.output_mask:] to the log. *)
Lemma from_mask_test_outcome (st : St val) :
  exists r st',
    mask_test st = (r, st') /\
    output_bbox (self st') = output_bbox (self st) /\
    exists evs, trace st' = trace st ++ evs /\
      match mask_truth (output_mask (self st)) with
      | Raise e => r = Raise e /\ evs = [] /\ self st' = self st
      | Ok _ =>
          publication cfg w (output_bbox (self st)) (output (self st)) r evs /\
          output (self st') = transpose4 (output (self st))
      end.
Proof.
  unfold from_mask_test.
  unfold mbind at 1. unfold M_bind at 1. unfold get_self at 1.
  unfold mbind at 1. unfold M_bind at 1. unfold lift at 1.
  destruct (mask_truth (output_mask (self st))) as [masked|e] eqn:Htruth.
  - unfold mbind at 1. unfold M_bind at 1.
    assert (exists st1,
      (if masked then _mask_output val val_nonzero val_mul;; log_key "mask_output"
       else mret ()) st = (Ok tt, st1) /\
      output (self st1) = output (self st) /\
      output_bbox (self st1) = output_bbox (self st) /\
      trace st1 = trace st) as (st1 & -> & Hout & Hbox & Htr).
    { destruct masked.
      - unfold mbind, M_bind.
        rewrite (mask_output_unchanged val_nonzero val_mul st).
        + eexists. split; [reflexivity|]. by cbn.
        + unfold mask_output_of. by rewrite (mask_truth_all _ Htruth).
      - by exists st. }
    destruct (publish_spec st1) as (r & st' & Hpub & Hout' & Hbox' & evs & Htr' & Hp).
    exists r, st'. rewrite Hout, Hbox in Hp.
    split_and!; [exact Hpub|congruence|].
    exists evs. split; [congruence|]. split; [done|congruence].
  - exists (Raise e), st. split_and!; [done|done|].
    exists []. by rewrite app_nil_r.
Qed.


End Publishing.

Section PublicationOrder.

Context {val : Type}.
Variable val_nonzero : val -> bool.
Variable val_mul : val -> Z -> val.
Variable cfg : Config.
Variable w : World val.

Local Abbreviation call := (__call__ val val_nonzero val_mul cfg w).
Local Abbreviation mask_read box :=
  (EvReadVolume (val:=val) (default "" (output_mask_layer_path cfg))
     (output_mask_mip cfg) (mask_request cfg box)).

(** A stage seen only as something that keeps the box and adds events. *)
Lemma quiet_any {A : Type} (m : M val A) :
  quiet m -> stage m (fun _ _ _ => True).
Proof. intros Hm. by eapply stage_weaken. Qed.

Lemma published_bind {A : Type} (m : M val A) (k : A -> M val unit) :
  stage m (fun _ _ _ => True) ->
  (forall a, stage (k a) (ends_published cfg w)) ->
  stage (m ≫= k) (ends_published cfg w).
Proof.
  intros Hm Hk.
  apply (stage_bind m k _ (fun _ => ends_published cfg w) _ Hm Hk).
  - intros b e evs _. left. by exists e.
  - intros b a evs1 r evs2 _ [[e ->]|(evs0 & out & keys & -> & Hw & Ht & Hp)].
    + left. by exists e.
    + right. exists (evs1 ++ evs0), out, keys. by rewrite app_assoc.
Qed.

Lemma stage_from_mask_test :
  stage (from_mask_test val val_nonzero val_mul cfg w) (ends_published cfg w).
Proof.
  intros st.
  destruct (from_mask_test_outcome val_nonzero val_mul cfg w st)
    as (r & st' & -> & Hbox & evs & Htr & Hcase).
  cbn [fst snd]. split; [done|]. exists evs. split; [done|].
  destruct (mask_truth (output_mask (self st))) as [masked|e].
  - destruct Hcase as [Hcase _]. unfold publication in Hcase. cbv zeta in Hcase.
    destruct (write_volume w) as [[]|e] eqn:Hw; [|left; exists e; tauto].
    destruct (dim3 (transpose4 (output (self st))) =? 0)%nat;
      [left; eexists; apply Hcase|].
    destruct (downsample_and_upload w) as [[]|e] eqn:Ht; [|left; exists e; tauto].
    destruct Hcase as (keys & -> & ->).
    destruct (put_file w (success_log cfg) _) as [[]|e] eqn:Hput;
      [|left; by exists e].
    right. by exists [], (transpose4 (output (self st))), keys.
  - left. exists e. tauto.
Qed.

Lemma stage_after_mask_published :
  stage (after_mask val val_nonzero val_mul cfg w) (ends_published cfg w).
Proof.
  unfold after_mask.
  apply published_bind; [apply quiet_any, quiet_read_image|intros _].
  apply published_bind; [apply quiet_any, quiet_log_key|intros _].
  apply published_bind;
    [eapply stage_weaken; [apply stage_validate_image|done]|intros _].
  apply published_bind; [apply quiet_any, quiet_log_key|intros _].
  apply published_bind; [apply quiet_any, quiet_mask_missing_sections|intros _].
  apply published_bind; [apply quiet_any, quiet_log_key|intros _].
  apply published_bind; [apply quiet_any, quiet_inference|intros _].
  apply published_bind; [apply quiet_any, quiet_log_key|intros _].
  apply published_bind; [apply quiet_any, quiet_crop|intros _].
  apply published_bind; [apply quiet_any, quiet_log_key|intros _].
  apply stage_from_mask_test.
Qed.

(** One invocation, for any description [Q] of the stages below the
    test of a black mask. *)
Lemma call_cases (Q : bbox -> result unit -> list (event val) -> Prop) :
  stage (after_mask val val_nonzero val_mul cfg w) Q ->
  forall (box : bbox) (st : St val),
  exists evs, trace (call box st).2 = trace st ++ evs /\
    ((exists m, cutout_mask w (mask_request cfg box) = Ok [m] /\
                mask_is_black (Some m) = true /\
                (call box st).1 = Ok tt /\ evs = [mask_read box]) \/
     (exists e, (call box st).1 = Raise e /\ evs = [mask_read box]) \/
     (exists pre mid,
        evs = pre ++ mid /\ (pre = [] \/ pre = [mask_read box]) /\
        Q box (call box st).1 mid)).
Proof.
  intros Hstage box st. destruct box as [[sz sy] sx].
  unfold __call__, _read_output_mask, mask_request.
  unfold mbind, M_bind, modify, get_self, emit, lift, log_key.
  cbn -[after_mask mask_is_black Nat.pow].
  destruct (str_truthy (output_mask_layer_path cfg));
    cbn -[after_mask mask_is_black Nat.pow].
  - destruct (cutout_mask w _) as [czyx|e] eqn:Hcut;
      cbn -[after_mask mask_is_black Nat.pow];
      [destruct czyx as [|m [|m' czyx]];
       cbn -[after_mask mask_is_black Nat.pow]|];
      try (eexists; split; [reflexivity|]; right; left; by eexists).
    destruct (mask_is_black (Some m)) eqn:Hblack.
    + eexists. split; [reflexivity|]. left. by exists m.
    + match goal with
      | |- context [after_mask _ _ _ _ _ ?s] =>
          destruct (Hstage s) as (_ & mid & Htr & Hend)
      end.
      cbn [self trace output_bbox with_log with_mask with_mask_geometry
           with_bbox] in Htr, Hend.
      exists ([mask_read (sz, sy, sx)] ++ mid). split.
      * rewrite Htr. by rewrite <- app_assoc.
      * right; right. eexists _, mid. split; [reflexivity|]. split; [by right|done].
  - change (mask_is_black None) with false. cbv iota.
    match goal with
    | |- context [after_mask _ _ _ _ _ ?s] =>
        destruct (Hstage s) as (_ & mid & Htr & Hend)
    end.
    cbn [self trace output_bbox with_log with_mask with_mask_geometry
         with_bbox] in Htr, Hend.
    exists mid. split; [done|].
    right; right. exists [], mid. split; [done|]. split; [by left|done].
Qed.

(** X6.  An invocation that returns normally has either left by the
    early exit on a black mask or published everything, in this order and
    as its last three events: the output at the output layer, over the
    output bounding box in x,y,z order and at the configured mip, then
    the thumbnail, then the log; and the store accepted all three.  So an
    invocation whose output write or thumbnail fails never returns
    normally and never puts a log at the success path after it. *)
Theorem successful_run_publishes_in_order (box : bbox) (st : St val) :
  (call box st).1 = Ok tt ->
  (forall m, cutout_mask w (mask_request cfg box) = Ok [m] ->
             mask_is_black (Some m) = false) ->
  exists evs0 out keys,
    trace (call box st).2 =
      trace st ++ evs0
        ++ [EvWriteVolume (output_layer_path cfg) (mip cfg) (reversed box) out;
            EvThumbnail (os_path_join (output_layer_path cfg) "thumbnail");
            EvPutFile (os_path_join (output_layer_path cfg) "log")
                      (to_filename w box) keys] /\
    write_volume w = Ok tt /\ downsample_and_upload w = Ok tt /\
    put_file w (os_path_join (output_layer_path cfg) "log") (to_filename w box)
      = Ok tt.
Proof.
  intros Hok Hmask.
  destruct (call_cases _ stage_after_mask_published box st) as (evs & Htr & Hcases).
  destruct Hcases as [(m & Hcut & Hblack & _)|[(e & Hr & _)|(pre & mid & -> & Hpre & Hend)]].
  - rewrite (Hmask m Hcut) in Hblack. discriminate.
  - rewrite Hok in Hr. discriminate.
  - destruct Hend as [[e Hr]|(evs0 & out & keys & -> & Hw & Ht & Hp)].
    + rewrite Hok in Hr. discriminate.
    + exists (pre ++ evs0), out, keys. rewrite Htr.
      split; [by rewrite <- !app_assoc|done].
Qed.

End PublicationOrder.

(** ** The crop for any margin *)

Section CropAnyMargin.

Context {A : Type}.

(** The crop of one axis by a margin that is not negative drops the
    margin on both sides and never fails: an axis shorter than twice the
    margin is left empty. *)
Lemma crop_axis_any (m : nat) (l : list A) :
  length (crop_axis (Z.of_nat m) l) = (length l - 2 * m)%nat /\
  forall k, (k < length l - 2 * m)%nat ->
            crop_axis (Z.of_nat m) l !! k = l !! (k + m)%nat.
Proof.
  unfold crop_axis, py_slice, slice_bound.
  destruct (Z.ltb_spec (Z.of_nat m) 0) as [?|_]; [lia|].
  rewrite Nat2Z.id.
  destruct (Z.ltb_spec (Z.of_nat (length l) - Z.of_nat m) 0) as [Hneg|Hpos].
  - replace (Nat.min m (length l)) with (length l) by lia.
    rewrite drop_ge by lia. split; [by rewrite take_nil; cbn; lia|].
    intros k Hk. lia.
  - replace (Z.to_nat (Z.of_nat (length l) - Z.of_nat m))
      with (length l - m)%nat by lia.
    replace (Nat.min m (length l)) with m by lia.
    replace (Nat.min (length l - m) (length l) - m)%nat
      with (length l - 2 * m)%nat by lia.
    split.
    + rewrite length_take, length_drop. lia.
    + intros k Hk. rewrite lookup_take_lt by done. rewrite lookup_drop.
      f_equal. lia.
Qed.

Lemma crop_axis_zero (l : list A) : crop_axis 0 l = l.
Proof.
  unfold crop_axis, py_slice, slice_bound. cbn [Z.ltb Z.compare Z.to_nat].
  rewrite Z.sub_0_r.
  destruct (Z.ltb_spec (Z.of_nat (length l)) 0) as [?|_]; [lia|].
  rewrite Nat2Z.id, Nat.min_0_l, Nat.min_id, Nat.sub_0_r. cbn [drop].
  by rewrite take_ge.
Qed.

End CropAnyMargin.

Section CropLaws.

Context {val : Type}.

(** The crop of a buffer of any shape. *)
Lemma crop_any_margin (C D H W M0 M1 M2 : nat) (out : arr4 val) :
  has_shape4 C D H W out ->
  has_shape4 C (D - 2 * M0) (H - 2 * M1) (W - 2 * M2)
             (crop val (Z.of_nat M0, Z.of_nat M1, Z.of_nat M2) out) /\
  forall c z y x,
    (c < C)%nat -> (z < D - 2 * M0)%nat -> (y < H - 2 * M1)%nat ->
    (x < W - 2 * M2)%nat ->
    get4 (crop val (Z.of_nat M0, Z.of_nat M1, Z.of_nat M2) out) c z y x
    = get4 out c (z + M0) (y + M1) (x + M2).
Proof.
  intros [HC Hout]. unfold crop. split.
  - split; [by rewrite length_map|].
    apply map_Forall. eapply Forall_impl; [exact Hout|].
    intros channel [Hd Hplanes]. split.
    + rewrite length_map, (proj1 (crop_axis_any M0 channel)). by rewrite Hd.
    + apply map_Forall, crop_axis_Forall.
      eapply Forall_impl; [exact Hplanes|].
      intros plane [Hh Hrows]. cbn beta. split.
      * rewrite length_map, (proj1 (crop_axis_any M1 plane)). by rewrite Hh.
      * apply map_Forall, crop_axis_Forall.
        eapply Forall_impl; [exact Hrows|].
        intros row Hw. cbn beta.
        rewrite (proj1 (crop_axis_any M2 row)). by rewrite Hw.
  - intros c z y x Hc Hz Hy Hx. unfold get4, get3.
    rewrite map_lookup.
    destruct (lookup_lt_is_Some_2 out c) as [channel Hch]; [lia|].
    rewrite Hch. cbn [fmap option_fmap option_map mbind option_bind].
    destruct (Forall_lookup_1 _ _ _ _ Hout Hch) as [Hd Hplanes].
    rewrite map_lookup.
    rewrite (proj2 (crop_axis_any M0 channel) z) by lia.
    destruct (lookup_lt_is_Some_2 channel (z + M0)) as [plane Hpl]; [lia|].
    rewrite Hpl. cbn [fmap option_fmap option_map mbind option_bind].
    destruct (Forall_lookup_1 _ _ _ _ Hplanes Hpl) as [Hh Hrows].
    rewrite map_lookup.
    rewrite (proj2 (crop_axis_any M1 plane) y) by lia.
    destruct (lookup_lt_is_Some_2 plane (y + M1)) as [row Hrow]; [lia|].
    rewrite Hrow. cbn [fmap option_fmap option_map mbind option_bind].
    pose proof (Forall_lookup_1 _ _ _ _ Hrows Hrow) as Hw. cbn beta in Hw.
    by rewrite (proj2 (crop_axis_any M2 row) x) by lia.
Qed.

(** X7.  For a margin that is not negative the crop never fails and
    shortens every spatial axis by twice its margin, down to nothing when
    the axis is shorter than that: a buffer of shape (C, D, H, W) becomes
    one of shape (C, D-2*M0, H-2*M1, W-2*M2) with the differences
    truncated at zero, and the voxel (c, z, y, x) of the result is the
    voxel (c, z+M0, y+M1, x+M2) of the buffer. *)
Theorem crop_any_shape (C D H W M0 M1 M2 : nat) (out : arr4 val) :
  has_shape4 C D H W out ->
  has_shape4 C (D - 2 * M0) (H - 2 * M1) (W - 2 * M2)
             (crop val (Z.of_nat M0, Z.of_nat M1, Z.of_nat M2) out) /\
  forall c z y x,
    (c < C)%nat -> (z < D - 2 * M0)%nat -> (y < H - 2 * M1)%nat ->
    (x < W - 2 * M2)%nat ->
    get4 (crop val (Z.of_nat M0, Z.of_nat M1, Z.of_nat M2) out) c z y x
    = get4 out c (z + M0) (y + M1) (x + M2).
Proof. exact (crop_any_margin C D H W M0 M1 M2 out). Qed.

(** X8.  With the margin (0, 0, 0) the crop gives back the buffer it was
    given, whatever its shape. *)
Theorem crop_zero_margin (out : arr4 val) : crop val (0, 0, 0) out = out.
Proof.
  unfold crop. rewrite <- (map_id out) at 2. apply map_ext. intros channel.
  rewrite crop_axis_zero. rewrite <- (map_id channel) at 2.
  apply map_ext. intros plane. rewrite crop_axis_zero.
  rewrite <- (map_id plane) at 2. apply map_ext. intros row.
  apply crop_axis_zero.
Qed.

(** X9.  The crop undoes the expansion of [_read_image]: the image is
    requested over the output bounding box widened by the margin on both
    sides of each axis, and an output with the spatial shape of that
    request is cropped to the shape of the output bounding box itself,
    for every margin that is not negative. *)
Theorem crop_undoes_margin_expansion (C M0 M1 M2 : nat) (sz sy sx : slice)
    (out : arr4 val) :
  has_shape4 C (extent (expand sz (Z.of_nat M0)))
               (extent (expand sy (Z.of_nat M1)))
               (extent (expand sx (Z.of_nat M2))) out ->
  has_shape4 C (extent sz) (extent sy) (extent sx)
             (crop val (Z.of_nat M0, Z.of_nat M1, Z.of_nat M2) out).
Proof.
  destruct sz as [z0 z1], sy as [y0 y1], sx as [x0 x1]. intros Hshape.
  pose proof (proj1 (crop_any_margin _ _ _ _ M0 M1 M2 out Hshape)) as Hcrop.
  unfold extent, expand in *. cbn [fst snd] in *.
  replace (Z.to_nat (z1 - z0)) with (Z.to_nat (z1 + Z.of_nat M0 - (z0 - Z.of_nat M0)) - 2 * M0)%nat by lia.
  replace (Z.to_nat (y1 - y0)) with (Z.to_nat (y1 + Z.of_nat M1 - (y0 - Z.of_nat M1)) - 2 * M1)%nat by lia.
  replace (Z.to_nat (x1 - x0)) with (Z.to_nat (x1 + Z.of_nat M2 - (x0 - Z.of_nat M2)) - 2 * M2)%nat by lia.
  exact Hcrop.
Qed.

End CropLaws.

(** ** The validation stage *)

Section ClampArithmetic.

(** X10.  The clamped region is aligned to the grid of the validation
    mip and lies inside the image: for a factor [f > 0], an image that
    starts at [go] with extent [s] and a volume offset [vo], the clamped
    start and stop are multiples of [f] away from [vo], the start is
    after [go] by at least one and at most [f] voxels, even when [go] is
    already aligned, and the stop is at most [go + s] and less than [f]
    voxels before it. *)
Theorem clamp_aligned_inside (go s vo f : Z) :
  0 < f ->
  (clamp_offset go vo f - vo) mod f = 0 /\
  (clamp_stop go s vo f - vo) mod f = 0 /\
  go < clamp_offset go vo f <= go + f /\
  go + s - f < clamp_stop go s vo f <= go + s.
Proof.
  intros Hf. unfold clamp_offset, clamp_stop.
  pose proof (Z.mod_pos_bound (go - vo) f Hf) as Ha.
  pose proof (Z.mod_pos_bound (go + s - vo) f Hf) as Hb.
  pose proof (Z.div_mod (go - vo) f ltac:(lia)) as Hda.
  pose proof (Z.div_mod (go + s - vo) f ltac:(lia)) as Hdb.
  split_and!; [| |lia|lia|lia|lia].
  - replace (go + f - (go - vo) mod f - vo) with (((go - vo) / f + 1) * f) by lia.
    apply Z.mod_mul. lia.
  - replace (go + s - (go + s - vo) mod f - vo) with ((go + s - vo) / f * f) by lia.
    apply Z.mod_mul. lia.
Qed.

End ClampArithmetic.

Section Validation.

Context {val : Type}.
Variable cfg : Config.
Variable w : World val.

(** X11.  Along the depth axis, where the factor is one, the clamped
    region always leaves out the first section of the image and keeps all
    the others: the depth slice of the clamped region runs from one after
    the global depth offset of the image to its end. *)
Theorem clamped_depth_skips_first_section (vmip : nat) (img : OffsetArray) :
  clamped_slices cfg w vmip img !! 2%nat
  = Some ((global_offset img).1.1 + 1,
          (global_offset img).1.1 + Z.of_nat (length (data img))).
Proof.
  unfold clamped_slices.
  destruct (global_offset img) as [[gz gy] gx].
  destruct (voxel_offset w) as [[vx vy] vz].
  unfold shape3, dim0, clamp_offset, clamp_stop. cbn [lookup list_lookup fst].
  rewrite !Z.mod_1_r. do 2 f_equal; lia.
Qed.

(** X12.  The validation never changes the executor: whatever its
    outcome, the image and every other field are as before; and without a
    validation mip it does nothing at all. *)
Theorem validate_image_is_read_only (st : St val) :
  self (_validate_image val cfg w st).2 = self st /\
  (image_validate_mip cfg = None -> _validate_image val cfg w st = (Ok tt, st)).
Proof.
  split.
  - destruct (image_validate_mip cfg) as [vmip|] eqn:Hv.
    + destruct (offset_cutout w (image (self st))
                  (rev (clamped_slices cfg w vmip (image (self st)))))
        as [zyx|e] eqn:Hcut.
      * rewrite (validate_image_after_cutout cfg w st vmip zyx Hv Hcut).
        by destruct (validate_by_template_matching w _);
          [|destruct (put_file w (error_log cfg) _)].
      * unfold _validate_image. rewrite Hv.
        unfold mbind, M_bind, get_self, lift. by rewrite Hcut.
    + unfold _validate_image. by rewrite Hv.
  - intros Hv. unfold _validate_image. by rewrite Hv.
Qed.

(** X13.  When a validation mip is configured, the validation returns
    normally only if the clamped region could be cut out, the reference
    read at the validation mip has a single channel and equals the
    downsampled image; the answer of the template matching does not
    count, except that its log must have been accepted when it reported
    failure. *)
Theorem validate_image_ok_means_reference_agrees (st : St val) (vmip : nat) :
  image_validate_mip cfg = Some vmip ->
  (_validate_image val cfg w st).1 = Ok tt ->
  exists zyx xyzc,
    let clamped := clamped_slices cfg w vmip (image (self st)) in
    offset_cutout w (image (self st)) (rev clamped) = Ok zyx /\
    cutout_validate w (bbox_to_mip w clamped (mip cfg) vmip) = Ok xyzc /\
    dim3 xyzc = 1%nat /\
    np_alltrue_eq w (squeeze3 0 xyzc) (checked_image cfg w vmip zyx) = true /\
    (validate_by_template_matching w (checked_image cfg w vmip zyx) = false ->
     put_file w (error_log cfg) (to_filename w (output_bbox (self st))) = Ok tt).
Proof.
  intros Hv Hok.
  destruct (offset_cutout w (image (self st))
              (rev (clamped_slices cfg w vmip (image (self st)))))
    as [zyx|e] eqn:Hcut.
  - rewrite (validate_image_after_cutout cfg w st vmip zyx Hv Hcut) in Hok.
    assert (reference_check cfg w vmip
              (clamped_slices cfg w vmip (image (self st)))
              (checked_image cfg w vmip zyx) = Ok tt ->
            exists xyzc,
              cutout_validate w
                (bbox_to_mip w (clamped_slices cfg w vmip (image (self st)))
                   (mip cfg) vmip) = Ok xyzc /\
              dim3 xyzc = 1%nat /\
              np_alltrue_eq w (squeeze3 0 xyzc) (checked_image cfg w vmip zyx)
                = true) as Href.
    { unfold reference_check, rbind.
      destruct (cutout_validate w _) as [xyzc|e]; [|done].
      destruct (Nat.eqb_spec (dim3 xyzc) 1) as [Hdim|_]; [|done].
      destruct (np_alltrue_eq w _ _) eqn:Heq; [|done].
      intros _. by exists xyzc. }
    exists zyx.
    destruct (validate_by_template_matching w _) eqn:Htm.
    + destruct (Href Hok) as (xyzc & ? & ? & ?). exists xyzc.
      cbn zeta. split_and!; try done.
    + destruct (put_file w (error_log cfg) _) as [[]|e] eqn:Hput; [|done].
      destruct (Href Hok) as (xyzc & ? & ? & ?). exists xyzc.
      cbn zeta. split_and!; try done.
  - unfold _validate_image in Hok. rewrite Hv in Hok.
    unfold mbind, M_bind, get_self, lift in Hok. by rewrite Hcut in Hok.
Qed.

End Validation.

(** ** The missing sections, any id list *)

Section MissingSectionsLaws.

Local Abbreviation zero_plane := (map (map (fun _ : Z => 0))).

(** X14.  The loop stops for good at the first id beyond the depth
    range: the ids listed after it are ignored, also those inside the
    range, so a list that is not ascending can leave a listed section
    unmasked. *)
Theorem ids_after_an_id_beyond_the_range_are_ignored
    (before after : list Z) (z : Z) (a : OffsetArray) :
  (slices a).1.1.2 < z ->
  mask_missing_sections_of (before ++ z :: after) a
  = mask_missing_sections_of before a.
Proof.
  intros Hz. unfold mask_missing_sections_of.
  destruct ((slices a).1.1) as [start stop]. cbn [snd] in Hz.
  generalize (data a) as img. generalize ((global_offset a).1.1) as offset0.
  intros offset0.
  assert (forall img,
    mask_sections_loop start stop offset0 (before ++ z :: after) img
    = mask_sections_loop start stop offset0 before img) as Hloop.
  { induction before as [|z0 before IH]; intros img.
    - cbn [app mask_sections_loop].
      by destruct (Z.gtb_spec z stop) as [_|?]; [|lia].
    - cbn [app mask_sections_loop]. destruct (z0 >? stop); [done|].
      destruct ((z0 >=? start) && (z0 <=? stop)); [|apply IH].
      destruct (zero_section (z0 - offset0) img); [apply IH|done]. }
  intros img. by rewrite Hloop.
Qed.

Lemma zero_plane_shape (h wd : nat) (plane : list (list Z)) :
  length plane = h /\ Forall (fun row => length row = wd) plane ->
  length (zero_plane plane) = h /\
  Forall (fun row => length row = wd) (zero_plane plane).
Proof.
  intros [Hh Hrows]. split; [by rewrite length_map|].
  apply map_Forall. eapply Forall_impl; [exact Hrows|].
  intros row Hrow. cbn beta. by rewrite length_map.
Qed.

Lemma zero_section_shape (d h wd : nat) (i : Z) (img img' : arr3 Z) :
  has_shape3 d h wd img -> zero_section i img = Ok img' ->
  has_shape3 d h wd img'.
Proof.
  intros [Hd Hplanes] H. unfold zero_section, rbind in H.
  destruct (py_index (length img) i) as [k|e]; [|done].
  injection H as <-. split; [by rewrite length_alter|].
  apply Forall_lookup. intros j plane Hj.
  rewrite list_lookup_alter in Hj. destruct (decide (k = j)) as [->|_].
  - destruct (img !! j) as [plane0|] eqn:Hj0; [|done].
    injection Hj as <-. apply zero_plane_shape.
    apply (Forall_lookup_1 _ _ _ _ Hplanes Hj0).
  - apply (Forall_lookup_1 _ _ _ _ Hplanes Hj).
Qed.

(** X15.  Whatever the id list, and whether the stage completes or
    raises, the image keeps its shape and its global offset: sections are
    overwritten in place, never added or removed. *)
Theorem missing_sections_keep_the_shape (d h wd : nat) (ids : list Z)
    (a : OffsetArray) :
  has_shape3 d h wd (data a) ->
  has_shape3 d h wd (data (mask_missing_sections_of ids a).2) /\
  global_offset (mask_missing_sections_of ids a).2 = global_offset a.
Proof.
  intros Hshape. unfold mask_missing_sections_of.
  destruct ((slices a).1.1) as [start stop].
  assert (forall img, has_shape3 d h wd img ->
    has_shape3 d h wd
      (mask_sections_loop start stop (global_offset a).1.1 ids img).2) as Hloop.
  { induction ids as [|z ids IH]; intros img Himg; [done|].
    cbn [mask_sections_loop]. destruct (z >? stop); [done|].
    destruct ((z >=? start) && (z <=? stop)); [|by apply IH].
    destruct (zero_section (z - (global_offset a).1.1) img) as [img'|e] eqn:Hz;
      [|done].
    apply IH. by eapply zero_section_shape. }
  specialize (Hloop (data a) Hshape).
  by destruct (mask_sections_loop start stop _ ids (data a)).
Qed.

End MissingSectionsLaws.

Section MissingSectionsStage.

Context {val : Type}.
Variable cfg : Config.
Variable w : World val.

(** X16.  With a file of missing sections configured and loaded as an
    ascending list of no id or of two and more ids that does not hold the
    id [stop] of the depth range of the image, the stage reads the file
    once and zeroes exactly the sections whose global depth is in the
    list: the section [k] of the image is all zero when
    [global_offset[0] + k] is listed and unchanged otherwise; ids outside
    the depth range change nothing.  A file that holds a single id is
    loaded as an array without axes: the loop over it raises TypeError
    and no section is zeroed.  Without a file name the stage does nothing
    and reads no file. *)
Theorem mask_missing_sections_zeroes_listed (st : St val) :
  (forall file ids,
     missing_section_ids_file_name cfg = Some file -> file <> "" ->
     loadtxt w file = Ok ids ->
     length ids <> 1%nat ->
     Sorted Z.le ids ->
     (slices (image (self st))).1.1.2 ∉ ids ->
     exists st',
       _mask_missing_sections val cfg w st = (Ok tt, st') /\
       trace st' = trace st ++ [EvLoadTxt file] /\
       global_offset (image (self st')) = global_offset (image (self st)) /\
       data (image (self st')) =
         imap (fun k plane =>
                 if bool_decide
                      ((global_offset (image (self st))).1.1 + Z.of_nat k ∈ ids)
                 then map (map (fun _ => 0)) plane else plane)
              (data (image (self st)))) /\
  (forall file z,
     missing_section_ids_file_name cfg = Some file -> file <> "" ->
     loadtxt w file = Ok [z] ->
     _mask_missing_sections val cfg w st =
       (Raise TypeError,
        {| self := self st; trace := trace st ++ [EvLoadTxt file] |})) /\
  (str_truthy (missing_section_ids_file_name cfg) = false ->
   _mask_missing_sections val cfg w st = (Ok tt, st)).
Proof.
  split_and!.
  - intros file ids Hfile Hne Hload Hlen Hsorted Hstop.
    unfold _mask_missing_sections. rewrite Hfile. cbn [str_truthy default].
    destruct (String.eqb_spec file "") as [?|_]; [done|]. cbn [negb].
    unfold mbind at 1. unfold M_bind at 1. unfold emit at 1.
    unfold mbind at 1. unfold M_bind at 1. unfold lift at 1.
    unfold id. rewrite Hload.
    assert (forall (A : Type) (x y : A),
              match ids with [_] => x | _ => y end = y) as Hmatch.
    { intros A x y. by destruct ids as [|z [|z' ids']]. }
    rewrite Hmatch.
    unfold mbind, M_bind, lift, get_self, modify. cbn [self trace fst snd].
    rewrite (missing_sections_zeroed _ ids Hsorted Hstop).
    eexists. split; [reflexivity|]. by cbn.
  - intros file z Hfile Hne Hload.
    unfold _mask_missing_sections. rewrite Hfile. cbn [str_truthy default].
    destruct (String.eqb_spec file "") as [?|_]; [done|]. cbn [negb].
    unfold mbind, M_bind, emit, lift, raise. unfold id. by rewrite Hload.
  - intros Hnone. unfold _mask_missing_sections. by rewrite Hnone.
Qed.

End MissingSectionsStage.

(** ** The upsampling of the mask *)

Section StrideArithmetic.

Local Open Scope nat_scope.

Lemma stride_hit (f i y : nat) :
  (i < f)%nat ->
  ((i <=? y)%nat && ((y - i) mod f =? 0)%nat) = (y mod f =? i)%nat /\
  (y mod f = i -> ((y - i) / f)%nat = (y / f)%nat).
Proof.
  intros Hi. pose proof (Nat.div_mod_eq y f) as Hy.
  pose proof (Nat.mod_upper_bound y f ltac:(lia)) as Hlt.
  split.
  - destruct (Nat.eqb_spec (y mod f) i) as [Heq|Hne].
    + assert (y - i = f * (y / f) + 0)%nat as Hsub by lia.
      destruct (Nat.leb_spec i y); [|lia].
      rewrite <- (Nat.mod_unique (y - i) f (y / f) 0 ltac:(lia) Hsub). done.
    + destruct (Nat.leb_spec i y) as [Hle|_]; [|done]. cbn [andb].
      destruct (Nat.eqb_spec ((y - i) mod f) 0) as [Hz|_]; [|done].
      exfalso. apply Hne.
      pose proof (Nat.div_mod_eq (y - i) f) as Hd. rewrite Hz in Hd.
      symmetry. apply (Nat.mod_unique y f ((y - i) / f) i); lia.
  - intros Heq. symmetry.
    apply (Nat.div_unique (y - i) f (y / f) 0); lia.
Qed.

Lemma strided_extent_exact (n i f : nat) :
  (i < f)%nat -> (0 < n)%nat -> strided_extent (n * f) i f = n.
Proof.
  intros Hi Hn. unfold strided_extent.
  destruct (Nat.leb_spec (n * f) i) as [?|_]; [nia|].
  symmetry. apply (Nat.div_unique _ f n (f - 1 - i)); nia.
Qed.

Lemma bidx_inside (n k : nat) : (k < n)%nat -> bidx n k = k.
Proof. intros Hk. unfold bidx. destruct (Nat.eqb_spec n 1); lia. Qed.

Lemma div_inside (n f y : nat) : (0 < f)%nat -> (y < n * f)%nat -> (y / f < n)%nat.
Proof. intros Hf Hy. apply Nat.Div0.div_lt_upper_bound. lia. Qed.

End StrideArithmetic.

Section Shapes.

Context {A : Type}.

Lemma shape3_of_has_shape (d h w : nat) (a : arr3 A) :
  (0 < d)%nat -> (0 < h)%nat -> has_shape3 d h w a -> shape3 a = (d, h, w).
Proof.
  intros Hd Hh [Hlen Hplanes]. unfold shape3, dim0, dim1, dim2.
  destruct a as [|plane a]; [cbn in Hlen; lia|].
  apply Forall_cons in Hplanes as [[Hplane Hrows] _]. cbn [hd].
  destruct plane as [|row plane]; [cbn in Hplane; lia|].
  apply Forall_cons in Hrows as [Hrow _]. cbn [hd]. congruence.
Qed.

Lemma get3_inside (d h w : nat) (a : arr3 A) (z y x : nat) :
  has_shape3 d h w a -> (z < d)%nat -> (y < h)%nat -> (x < w)%nat ->
  exists plane row v,
    a !! z = Some plane /\ plane !! y = Some row /\ row !! x = Some v /\
    length plane = h /\ length row = w /\ get3 a z y x = Some v.
Proof.
  intros [Hlen Hplanes] Hz Hy Hx.
  destruct (lookup_lt_is_Some_2 a z) as [plane Hpl]; [lia|].
  destruct (Forall_lookup_1 _ _ _ _ Hplanes Hpl) as [Hh Hrows].
  destruct (lookup_lt_is_Some_2 plane y) as [row Hrow]; [lia|].
  pose proof (Forall_lookup_1 _ _ _ _ Hrows Hrow) as Hw. cbn beta in Hw.
  destruct (lookup_lt_is_Some_2 row x) as [v Hv]; [lia|].
  exists plane, row, v. unfold get3. rewrite Hpl. cbn. rewrite Hrow. cbn.
  by rewrite Hv.
Qed.

Lemma zeros3_shape (zero : A) (d h w : nat) : has_shape3 d h w (zeros3 zero d h w).
Proof.
  unfold zeros3. split; [apply length_replicate|].
  apply Forall_replicate. split; [apply length_replicate|].
  apply Forall_replicate, length_replicate.
Qed.

Lemma zeros3_get (zero : A) (d h w z y x : nat) :
  (z < d)%nat -> (y < h)%nat -> (x < w)%nat ->
  get3 (zeros3 zero d h w) z y x = Some zero.
Proof.
  intros Hz Hy Hx. unfold get3, zeros3.
  rewrite lookup_replicate_2 by done. cbn.
  rewrite lookup_replicate_2 by done. cbn.
  by rewrite lookup_replicate_2.
Qed.

End Shapes.

Section Offsets.

Local Open Scope nat_scope.

Lemma ndindex2_bounds (f : nat) : Forall (fun ij => ij.1 < f /\ ij.2 < f) (ndindex2 f).
Proof.
  apply Forall_forall. intros [i j] Hij. unfold ndindex2 in Hij.
  apply list_elem_of_bind in Hij as (i' & Hij & Hi).
  apply list_elem_of_bind in Hij as (j' & Hij & Hj).
  apply list_elem_of_singleton in Hij. injection Hij as -> ->.
  apply elem_of_seq in Hi, Hj. cbn [fst snd]. lia.
Qed.

Lemma ndindex2_complete (f i j : nat) :
  i < f -> j < f ->
  existsb (fun ij => (i =? ij.1) && (j =? ij.2)) (ndindex2 f) = true.
Proof.
  intros Hi Hj. apply existsb_exists. exists (i, j). split.
  - apply list_elem_of_In. unfold ndindex2.
    apply list_elem_of_bind. exists i. split; [|apply elem_of_seq; lia].
    apply list_elem_of_bind. exists j. split; [|apply elem_of_seq; lia].
    by apply list_elem_of_singleton.
  - cbn [fst snd]. by rewrite !Nat.eqb_refl.
Qed.

End Offsets.

Section Upsampling.

Local Open Scope nat_scope.

Variables (f D h w : nat).
Hypothesis Hf : 0 < f.
Hypothesis HD : 0 < D.
Hypothesis Hh : 0 < h.
Hypothesis Hw : 0 < w.

Variable coarse : arr3 Z.
Hypothesis Hcoarse : has_shape3 D h w coarse.

Lemma assign_strided_row_spec (j x : nat) (vrow row : list Z) (old : Z) :
  j < f -> length vrow = w -> length row = w * f -> row !! x = Some old ->
  assign_strided_row j f vrow row !! x
  = Some (if (x mod f =? j) then default old (vrow !! (x / f)) else old).
Proof.
  intros Hj Hvrow Hrow Hx. unfold assign_strided_row.
  rewrite list_lookup_imap, Hx. cbn [fmap option_fmap option_map]. f_equal.
  destruct (stride_hit f j x Hj) as [Hhit Hdiv]. rewrite Hhit.
  destruct (Nat.eqb_spec (x mod f) j) as [Heq|_]; [|done].
  rewrite (Hdiv Heq), Hvrow, bidx_inside; [done|].
  apply lookup_lt_Some in Hx. apply div_inside; lia.
Qed.

(** One strided assignment: the voxels of the rows [i, i+f, ...] and the
    columns [j, j+f, ...] take the coarse element of their block. *)
Lemma assign_strided_spec (i j : nat) (mask : arr3 Z) :
  i < f -> j < f -> has_shape3 D (h * f) (w * f) mask ->
  exists mask',
    assign_strided i j f coarse mask = Ok mask' /\
    has_shape3 D (h * f) (w * f) mask' /\
    forall z y x, z < D -> y < h * f -> x < w * f ->
      get3 mask' z y x =
        if (y mod f =? i) && (x mod f =? j)
        then get3 coarse z (y / f) (x / f) else get3 mask z y x.
Proof.
  intros Hi Hj Hmask. unfold assign_strided.
  rewrite (shape3_of_has_shape D (h * f) (w * f) mask) by (done || nia).
  rewrite (shape3_of_has_shape D h w coarse) by done.
  rewrite !strided_extent_exact by done.
  unfold broadcasts. rewrite !Nat.eqb_refl. cbn [orb andb].
  eexists. split; [reflexivity|].
  assert (forall z y x, z < D -> y < h * f -> x < w * f ->
    exists plane row,
      imap (fun z plane =>
              imap (fun y row =>
                      if (i <=? y) && ((y - i) mod f =? 0)
                      then assign_strided_row j f
                             (default [] (default [] (coarse !! bidx D z)
                                            !! bidx h ((y - i) / f))) row
                      else row) plane) mask !! z = Some plane /\
      length plane = h * f /\ plane !! y = Some row /\ length row = w * f /\
      row !! x =
        if (y mod f =? i) && (x mod f =? j)
        then get3 coarse z (y / f) (x / f) else get3 mask z y x) as Hpoint.
  { intros z y x Hz Hy Hx.
    destruct (get3_inside _ _ _ mask z y x Hmask Hz Hy Hx)
      as (plane & row & old & Hpl & Hrow & Hold & Hplen & Hrlen & Hget).
    destruct (get3_inside _ _ _ coarse z (y / f) (x / f) Hcoarse Hz
                (div_inside h f y Hf Hy) (div_inside w f x Hf Hx))
      as (vplane & vrow & v & Hvpl & Hvrow & Hv & Hvplen & Hvrlen & Hvget).
    rewrite list_lookup_imap, Hpl. cbn [fmap option_fmap option_map].
    eexists _, _. split; [reflexivity|]. rewrite length_imap.
    split; [done|]. rewrite list_lookup_imap, Hrow.
    cbn [fmap option_fmap option_map]. split; [reflexivity|].
    destruct (stride_hit f i y Hi) as [Hhit Hdiv]. rewrite Hhit.
    destruct (Nat.eqb_spec (y mod f) i) as [Heq|_]; cbn [andb].
    - rewrite (Hdiv Heq), !bidx_inside by (done || by apply div_inside).
      rewrite Hvpl. cbv [default from_option id]. rewrite Hvrow.
      unfold assign_strided_row at 1. rewrite length_imap. split; [done|].
      rewrite (assign_strided_row_spec j x vrow row old) by done.
      rewrite Hv, Hvget, Hget. cbv [default from_option id].
      by destruct (x mod f =? j).
    - split; [done|]. by rewrite Hold, Hget. }
  split.
  - split; [rewrite length_imap; apply Hmask|].
    apply Forall_lookup. intros z plane Hz.
    pose proof (lookup_lt_Some _ _ _ Hz) as Hzlt.
    rewrite length_imap, (proj1 Hmask) in Hzlt.
    destruct (Hpoint z 0 0 Hzlt ltac:(nia) ltac:(nia))
      as (plane' & _ & Hpl' & Hlen & _).
    rewrite Hz in Hpl'. injection Hpl' as <-. split; [done|].
    apply Forall_lookup. intros y row Hy.
    pose proof (lookup_lt_Some _ _ _ Hy) as Hylt. rewrite Hlen in Hylt.
    destruct (Hpoint z y 0 Hzlt Hylt ltac:(nia))
      as (plane' & row' & Hpl' & _ & Hrow' & Hrlen & _).
    rewrite Hz in Hpl'. injection Hpl' as <-.
    rewrite Hy in Hrow'. by injection Hrow' as <-.
  - intros z y x Hz Hy Hx.
    destruct (Hpoint z y x Hz Hy Hx) as (plane & row & Hpl & _ & Hrow & _ & Hv).
    unfold get3 at 1. rewrite Hpl. cbn. rewrite Hrow. cbn. exact Hv.
Qed.

Lemma upsample_loop_spec (offsets : list (nat * nat)) : forall mask : arr3 Z,
  Forall (fun ij => ij.1 < f /\ ij.2 < f) offsets ->
  has_shape3 D (h * f) (w * f) mask ->
  exists mask',
    upsample_loop offsets f coarse mask = Ok mask' /\
    has_shape3 D (h * f) (w * f) mask' /\
    forall z y x, z < D -> y < h * f -> x < w * f ->
      get3 mask' z y x =
        if existsb (fun ij => (y mod f =? ij.1) && (x mod f =? ij.2)) offsets
        then get3 coarse z (y / f) (x / f) else get3 mask z y x.
Proof.
  induction offsets as [|[i j] offsets IH]; intros mask Hoff Hmask.
  - exists mask. by split_and!.
  - apply Forall_cons in Hoff as [[Hi Hj] Hoff]. cbn [fst snd] in Hi, Hj.
    cbn [upsample_loop].
    destruct (assign_strided_spec i j mask Hi Hj Hmask) as (m1 & -> & Hm1 & Hget1).
    cbn [rbind].
    destruct (IH m1 Hoff Hm1) as (m2 & -> & Hm2 & Hget2).
    exists m2. split_and!; [done|done|].
    intros z y x Hz Hy Hx. rewrite (Hget2 z y x Hz Hy Hx), (Hget1 z y x Hz Hy Hx).
    cbn [existsb fst snd].
    destruct ((y mod f =? i) && (x mod f =? j)); cbn [orb]; [|done].
    by destruct (existsb _ offsets).
Qed.

End Upsampling.

Section MaskLaw.

Local Open Scope nat_scope.

Context {val : Type}.
Variable val_nonzero : val -> bool.
Variable val_mul : val -> Z -> val.

(** The upsampled mask, element by element. *)
Lemma upsample_blocks (f C D h w : nat) (coarse : arr3 Z)
    (out : arr4 val) :
  0 < f -> 0 < C -> 0 < D -> 0 < h -> 0 < w ->
  has_shape3 D h w coarse ->
  has_shape4 C D (h * f) (w * f) out ->
  exists mask,
    upsample val f coarse out = Ok mask /\
    has_shape3 D (h * f) (w * f) mask /\
    forall z y x, z < D -> y < h * f -> x < w * f ->
      get3 mask z y x = get3 coarse z (y / f) (x / f).
Proof.
  intros Hf HC HD Hh Hw Hcoarse [Hlen Hout]. unfold upsample.
  destruct out as [|channel out]; [cbn in Hlen; lia|].
  apply Forall_cons in Hout as [Hchannel _]. cbn [hd].
  rewrite (shape3_of_has_shape D (h * f) (w * f) channel) by (done || nia).
  destruct (upsample_loop_spec f D h w Hf HD Hh Hw coarse Hcoarse (ndindex2 f)
              (zeros3 0%Z D (h * f) (w * f)) (ndindex2_bounds f)
              (zeros3_shape 0%Z _ _ _)) as (mask & Hloop & Hshape & Hget).
  exists mask. split_and!; [done|done|].
  intros z y x Hz Hy Hx. rewrite (Hget z y x Hz Hy Hx).
  by rewrite (ndindex2_complete f (y mod f) (x mod f))
    by (apply Nat.mod_upper_bound; lia).
Qed.

(** X17.  For a coarse mask of shape (D, h, w) and an output whose
    channels have shape (D, h*f, w*f), with a factor and extents that are
    not zero, the upsampling succeeds and is a block replication: the
    upsampled mask has the shape of a channel and its element (z, y, x) is
    the coarse element (z, y div f, x div f); the depth axis is not
    scaled. *)
Theorem upsample_is_block_replication (f C D h w : nat) (coarse : arr3 Z)
    (out : arr4 val) :
  0 < f -> 0 < C -> 0 < D -> 0 < h -> 0 < w ->
  has_shape3 D h w coarse ->
  has_shape4 C D (h * f) (w * f) out ->
  exists mask,
    upsample val f coarse out = Ok mask /\
    has_shape3 D (h * f) (w * f) mask /\
    forall z y x, z < D -> y < h * f -> x < w * f ->
      get3 mask z y x = get3 coarse z (y / f) (x / f).
Proof. exact (upsample_blocks f C D h w coarse out). Qed.

Lemma get3_zip3 {A B C : Type} (op : A -> B -> C) (a : arr3 A) (b : arr3 B)
    (z y x : nat) :
  get3 (zip3 op a b) z y x
  = (va ← get3 a z y x; vb ← get3 b z y x; Some (op va vb)).
Proof.
  unfold get3, zip3. rewrite lookup_zip_with.
  destruct (a !! z) as [pa|]; [|done]. cbn.
  destruct (b !! z) as [pb|];
    [|destruct (pa !! y) as [ra|]; cbn; [by destruct (ra !! x)|done]].
  cbn. rewrite lookup_zip_with.
  destruct (pa !! y) as [ra|]; [|done]. cbn.
  destruct (pb !! y) as [rb|]; [|by destruct (ra !! x)].
  cbn. by rewrite lookup_zip_with.
Qed.

(** X18.  When the mask stage does mask and completes, on a coarse mask
    of shape (D, h, w) and an output of shape (C, D, h*f, w*f), every
    voxel (z, y, x) of the channels 0, 1 and 2 is the old voxel multiplied
    by the coarse mask element (z, y div f, x div f), and the voxels of
    the other channels are as before. *)
Theorem mask_output_multiplies_by_block (f C D h w : nat) (coarse : arr3 Z)
    (out out' : arr4 val) :
  0 < f -> 0 < D -> 0 < h -> 0 < w ->
  has_shape3 D h w coarse ->
  has_shape4 C D (h * f) (w * f) out ->
  np_all_mask (Some coarse) = false ->
  np_any_output val val_nonzero out = true ->
  mask_output_of val val_nonzero val_mul (Some coarse) f out = (Ok tt, out') ->
  3 <= C /\
  forall c z y x, c < C -> z < D -> y < h * f -> x < w * f ->
    exists v m,
      get4 out c z y x = Some v /\
      get3 coarse z (y / f) (x / f) = Some m /\
      get4 out' c z y x = Some (if c <? 3 then val_mul v m else v).
Proof.
  intros Hf HD Hh Hw Hcoarse Hout Hall Hany H.
  unfold mask_output_of in H. rewrite Hall, Hany in H. cbn [negb] in H.
  destruct (np_any_mask (Some coarse)); cbn [negb] in H; [|done].
  assert (0 < C) as HC.
  { destruct Hout as [<- _]. destruct out; [done|cbn; lia]. }
  destruct (upsample_blocks f C D h w coarse out
              Hf HC HD Hh Hw Hcoarse Hout) as (mask & Hup & Hmask & Hget).
  cbn [default from_option id] in H. change (default [] (Some coarse)) with coarse in H.
  rewrite Hup in H.
  destruct (bool_decide (shape3 mask = shape3 (hd [] out))); cbn [negb] in H;
    [|done].
  destruct (multiply_channels val val_mul [0; 1; 2] mask out)
    as [r1 out1] eqn:Hmul.
  apply multiply_channels_spec in Hmul as (Hlen & Hframe & Hdone).
  destruct r1 as [[]|e]; [|done].
  destruct (np_any_output val val_nonzero out1); [|done].
  injection H as <-.
  assert (NoDup [0; 1; 2]) as Hnd.
  { by apply (bool_decide_unpack _). }
  specialize (Hdone eq_refl Hnd).
  assert (3 <= C) as H3.
  { destruct (Hdone 2) as (ch & Hch & _); [repeat constructor|].
    apply lookup_lt_Some in Hch. destruct Hout as [<- _]. lia. }
  split; [done|]. intros c z y x Hc Hz Hy Hx.
  destruct Hout as [HlenC Hchannels].
  destruct (lookup_lt_is_Some_2 out c) as [channel Hch]; [lia|].
  pose proof (Forall_lookup_1 _ _ _ _ Hchannels Hch) as Hchannel.
  destruct (get3_inside _ _ _ channel z y x Hchannel Hz Hy Hx)
    as (_ & _ & v & _ & _ & _ & _ & _ & Hv).
  destruct (get3_inside _ _ _ coarse z (y / f) (x / f) Hcoarse Hz
              (div_inside h f y Hf Hy) (div_inside w f x Hf Hx))
    as (_ & _ & m & _ & _ & _ & _ & _ & Hm).
  exists v, m. unfold get4. rewrite Hch. cbn [mbind option_bind].
  split_and!; [done|done|].
  destruct (Nat.ltb_spec c 3) as [Hlt|Hge].
  + destruct (Hdone c) as (channel' & Hch' & ->).
    { destruct c as [|[|[|c]]]; [repeat constructor..|lia]. }
    rewrite Hch in Hch'. injection Hch' as <-. cbn [mbind option_bind].
    rewrite get3_zip3, Hv, (Hget z y x Hz Hy Hx), Hm. done.
  + rewrite Hframe, Hch; [by cbn [mbind option_bind]|].
    rewrite !not_elem_of_cons. split_and!; [lia..|apply not_elem_of_nil].
Qed.

End MaskLaw.

Section MaskStageGuards.

Context {val : Type}.
Variable val_nonzero : val -> bool.
Variable val_mul : val -> Z -> val.


End MaskStageGuards.

Section LogPaths.

Lemma append_inj_l (a x y : string) : (a +:+ x = a +:+ y)%string -> x = y.
Proof.
  induction a as [|c a IH]; cbn; [done|]. intros H. injection H as H. auto.
Qed.

(** X20.  For every output layer path the three places an invocation
    publishes to besides the output layer are different from one another:
    the error log, the success log and the thumbnail never share a
    directory. *)
Theorem log_paths_are_distinct (cfg : Config) :
  error_log cfg <> success_log cfg /\
  error_log cfg <> os_path_join (output_layer_path cfg) "thumbnail" /\
  success_log cfg <> os_path_join (output_layer_path cfg) "thumbnail".
Proof.
  unfold error_log, success_log, os_path_join. cbn [Stdlib.Strings.Ascii.eqb].
  cbv [slash Stdlib.Strings.Ascii.eqb Bool.eqb].
  destruct ((output_layer_path cfg =? "")%string
            || ends_with_slash (output_layer_path cfg));
    split_and!; intros H; apply append_inj_l in H; try discriminate;
    apply append_inj_l in H; discriminate.
Qed.

End LogPaths.

Section MaskFetch.

Context {val : Type}.
Variable val_nonzero : val -> bool.
Variable val_mul : val -> Z -> val.
Variable cfg : Config.
Variable w : World val.

(** X21.  When a mask layer is configured and the read of the mask
    volume fails, or returns something else than one channel (ValueError),
    the invocation raises right there: the read of the mask is its only
    event, and no image is read. *)
Theorem failed_mask_fetch_aborts (box : bbox) (st : St val) :
  str_truthy (output_mask_layer_path cfg) = true ->
  (forall m, cutout_mask w (mask_request cfg box) <> Ok [m]) ->
  exists e st',
    __call__ val val_nonzero val_mul cfg w box st = (Raise e, st') /\
    trace st' =
      trace st ++ [EvReadVolume (default "" (output_mask_layer_path cfg))
                                (output_mask_mip cfg) (mask_request cfg box)] /\
    (forall e0, cutout_mask w (mask_request cfg box) = Raise e0 -> e = e0) /\
    (forall czyx, cutout_mask w (mask_request cfg box) = Ok czyx ->
                  e = ValueError).
Proof.
  intros Hpath Hbad. destruct box as [[sz sy] sx].
  unfold mask_request in Hbad |- *.
  unfold __call__, _read_output_mask, mbind, M_bind, modify, get_self,
    emit, lift, log_key. cbn -[Nat.pow after_mask]. rewrite Hpath.
  cbn -[Nat.pow after_mask].
  destruct (cutout_mask w _) as [czyx|e] eqn:Hcut.
  - destruct czyx as [|m [|m' czyx]]; [|by destruct (Hbad m)|];
      cbn -[Nat.pow after_mask]; eexists _, _;
      (split; [reflexivity|]); by split_and!.
  - cbn -[Nat.pow after_mask]. eexists _, _. split; [reflexivity|].
    split_and!; [done| |done]. intros e0 He0. by injection He0.
Qed.

(** X22.  When the store answers the image read with one channel of the
    shape of the request (not empty in depth and height), the image the
    executor keeps has the input region as its global bounding box: its slices are the output bounding
    box widened by the margin, which is also the region recorded in
    [input_slices]. *)
Theorem read_image_covers_input_region (st : St val) (img : arr3 Z)
    (m0 m1 m2 : Z) (sz sy sx : slice) :
  cropping_margin_size cfg = (m0, m1, m2) ->
  output_bbox (self st) = (sz, sy, sx) ->
  let input := (expand sz m0, expand sy m1, expand sx m2) in
  cutout_image w (reversed input) = Ok [img] ->
  has_shape3 (extent (expand sz m0)) (extent (expand sy m1))
             (extent (expand sx m2)) img ->
  (0 < extent (expand sz m0))%nat -> (0 < extent (expand sy m1))%nat ->
  (expand sx m2).1 <= (expand sx m2).2 ->
  exists st',
    _read_image val cfg w st = (Ok tt, st') /\
    trace st' = trace st ++ [EvReadVolume (image_layer_path cfg) (mip cfg)
                                          (reversed input)] /\
    input_slices (self st') = input /\
    slices (image (self st')) = input.
Proof.
  intros Hmargin Hbox input Hcut Hshape Hd Hh Hx. subst input.
  unfold _read_image, mbind, M_bind, modify, get_self, emit, lift, assert.
  cbn [self trace fst snd]. rewrite Hbox, Hmargin.
  cbn [self trace fst snd with_input_slices]. rewrite Hcut.
  cbn [dim0 length Nat.eqb squeeze0 mret M_ret self trace fst snd].
  eexists. split; [reflexivity|].
  cbn [self trace with_image with_input_slices input_slices image].
  split_and!; [done|done|].
  unfold slices. cbn [global_offset data].
  pose proof (shape3_of_has_shape _ _ _ img Hd Hh Hshape) as Hs.
  unfold shape3 in Hs. injection Hs as -> -> ->.
  destruct sz as [z0 z1], sy as [y0 y1], sx as [x0 x1].
  unfold extent, expand in *. cbn [fst snd] in *.
  f_equal; [f_equal|]; (f_equal; lia).
Qed.

End MaskFetch.

(** ** The further properties on sample inputs *)

Section MoreSampleRuns.

Import Fixtures.

Lemma next_returns_first_message_witness :
  SQS.__next__ (fun body => body) (Some 100) queue_after_two 5 =
    ([SQS.Receive; SQS.Sleep 100; SQS.Receive; SQS.Sleep 100; SQS.Receive],
     Ok ("handle-1", "11-13_0-2_0-2")).
Proof.
  apply (next_returns_first_message (fun body => body) (Some 100)
           queue_after_two 2 5 task_message).
  - intros [|[|i]] Hi; [reflexivity|reflexivity|lia].
  - reflexivity.
  - reflexivity.
  - right. split; [reflexivity|]. vm_compute. discriminate.
  - lia.
Defined.

Lemma next_returns_only_checked_messages_witness :
  exists (k : nat) (m : SQS.message),
    queue_after_two k = Some m /\ SQS.MD5OfBody m = SQS.Body m.
Proof.
  destruct (next_returns_only_checked_messages (fun body => body) (Some 100)
              queue_after_two 5
              [SQS.Receive; SQS.Sleep 100; SQS.Receive; SQS.Sleep 100; SQS.Receive]
              "handle-1" "11-13_0-2_0-2")
    as (k & m & _ & Hk & Hmd5 & _); [by vm_compute|].
  exists k, m. split; [exact Hk | exact Hmd5].
Defined.

Lemma send_message_list_batches_of_ten_witness :
  exists batches,
    SQS.send_message_list (fun _ _ => false) messages23 = (batches, Ok tt) /\
    length batches = 3%nat.
Proof.
  destruct (send_message_list_batches_of_ten (fun _ _ => false) messages23)
    as (batches & Hsend & _ & _ & _ & Hcount); [done|].
  exists batches. split; [exact Hsend|]. rewrite Hcount. by vm_compute.
Defined.

Lemma send_message_list_stops_at_failure_witness :
  exists not_sent,
    concat (replicate 2 (replicate 10 (SQS.entry_of "11-13_0-2_0-2"))) ++ not_sent
    = map SQS.entry_of messages23.
Proof.
  destruct (send_message_list_stops_at_failure rejects_second messages23
              (replicate 2 (replicate 10 (SQS.entry_of "11-13_0-2_0-2")))
              (Raise AssertionError))
    as ((not_sent & Hcat & _) & _); [by vm_compute|].
  exists not_sent. exact Hcat.
Defined.


Lemma successful_run_publishes_in_order_witness :
  exists evs0 out keys,
    trace (__call__ Z nonzero Z.mul cfg0 (world0 [[[1]]] true) box0 (fresh Z)).2 =
      evs0 ++ [EvWriteVolume "gs://out" 1 [(0, 2); (0, 2); (11, 13)] out;
               EvThumbnail "gs://out/thumbnail";
               EvPutFile "gs://out/log" "11-13_0-2_0-2" keys].
Proof.
  destruct (successful_run_publishes_in_order nonzero Z.mul cfg0
              (world0 [[[1]]] true) box0 (fresh Z))
    as (evs0 & out & keys & Htrace & _).
  - by vm_compute.
  - intros m Hm. injection Hm as <-. by vm_compute.
  - exists evs0, out, keys. rewrite Htrace. by vm_compute.
Defined.

(** A buffer of shape (1, 3, 1, 5) under the margin (1, 1, 1): the
    height, shorter than twice the margin, is cropped to nothing. *)
Lemma crop_any_shape_witness :
  has_shape4 1 1 0 3 (crop Z (1, 1, 1) [replicate 3 [[1; 2; 3; 4; 5]]]).
Proof.
  apply (proj1 (crop_any_shape 1 3 1 5 1 1 1 [replicate 3 [[1; 2; 3; 4; 5]]]
                  ltac:(split; [reflexivity|repeat constructor]))).
Defined.

Lemma crop_undoes_margin_expansion_witness :
  has_shape4 3 2 2 2 (crop Z (1, 1, 1) (replicate 3 image0)).
Proof.
  apply (crop_undoes_margin_expansion 3 1 1 1 (11, 13) (0, 2) (0, 2)
           (replicate 3 image0)).
  split; [reflexivity|]. repeat constructor.
Defined.

Lemma clamp_aligned_inside_witness :
  clamp_offset 10 3 4 = 11 /\ clamp_stop 10 9 3 4 = 19 /\
  (clamp_offset 10 3 4 - 3) mod 4 = 0.
Proof.
  split_and!; [reflexivity|reflexivity|].
  apply (clamp_aligned_inside 10 9 3 4). lia.
Defined.

Lemma validate_image_is_read_only_witness :
  self (_validate_image Z cfg0 (world0 [[[1]]] false) st_image).2 = self st_image.
Proof. apply (proj1 (validate_image_is_read_only cfg0 (world0 [[[1]]] false) st_image)). Defined.

Lemma validate_image_ok_means_reference_agrees_witness :
  exists xyzc,
    cutout_validate (world0 [[[1]]] true) [(0, 4); (0, 4); (11, 14)] = Ok xyzc /\
    dim3 xyzc = 1%nat.
Proof.
  destruct (validate_image_ok_means_reference_agrees cfg0 (world0 [[[1]]] true)
              st_image 2%nat ltac:(reflexivity) ltac:(by vm_compute))
    as (zyx & xyzc & _ & Href & Hdim & _).
  exists xyzc. split; [|exact Hdim]. by vm_compute.
Defined.

Lemma ids_after_an_id_beyond_the_range_are_ignored_witness :
  mask_missing_sections_of [200; 100] sections_90_110
  = mask_missing_sections_of [] sections_90_110.
Proof.
  apply (ids_after_an_id_beyond_the_range_are_ignored [] [100] 200 sections_90_110).
  vm_compute. reflexivity.
Defined.

Lemma missing_sections_keep_the_shape_witness :
  has_shape3 20 2 2 (data (mask_missing_sections_of [100; 110] sections_90_110).2).
Proof.
  apply (missing_sections_keep_the_shape 20 2 2 [100; 110] sections_90_110).
  split; [reflexivity|]. repeat constructor.
Defined.

Lemma mask_missing_sections_zeroes_listed_witness :
  exists st',
    _mask_missing_sections Z cfg0 (world0 [[[1]]] true) st_image = (Ok tt, st') /\
    trace st' = [EvLoadTxt "ids.txt"].
Proof.
  destruct (proj1 (mask_missing_sections_zeroes_listed cfg0 (world0 [[[1]]] true)
                     st_image) "ids.txt" [11; 12])
    as (st' & Hrun & Htrace & _).
  - reflexivity.
  - discriminate.
  - reflexivity.
  - discriminate.
  - repeat constructor; lia.
  - rewrite !not_elem_of_cons.
    split_and!; [by vm_compute..|apply not_elem_of_nil].
  - exists st'. split; [exact Hrun | exact Htrace].
Defined.

Lemma upsample_is_block_replication_witness :
  exists mask,
    upsample Z 2 checker_mask out_4x4 = Ok mask /\
    get3 mask 0 1 3 = get3 checker_mask 0 0 1.
Proof.
  destruct (upsample_is_block_replication 2 1 1 2 2 checker_mask out_4x4)
    as (mask & Hup & _ & Hget); [lia..| | |].
  - split; [reflexivity|]. repeat constructor.
  - split; [reflexivity|]. repeat constructor.
  - exists mask. split; [exact Hup|]. apply (Hget 0 1 3)%nat; lia.
Defined.

Lemma mask_output_multiplies_by_block_witness :
  exists v m,
    get4 out4 1 0 1 2 = Some v /\ get3 half_mask 0 0 1 = Some m /\
    get4 (replicate 3 [[[1; 2; 0; 0]; [5; 6; 0; 0]]]
          ++ [[[[1; 2; 3; 4]; [5; 6; 7; 8]]]]) 1 0 1 2 = Some (v * m).
Proof.
  destruct (mask_output_multiplies_by_block nonzero Z.mul 2 4 1 1 2 half_mask out4
              (replicate 3 [[[1; 2; 0; 0]; [5; 6; 0; 0]]]
               ++ [[[[1; 2; 3; 4]; [5; 6; 7; 8]]]]))
    as [_ Hvoxel]; [lia..| | | | | |].
  - split; [reflexivity|]. repeat constructor.
  - split; [reflexivity|]. repeat constructor.
  - by vm_compute.
  - by vm_compute.
  - by vm_compute.
  - destruct (Hvoxel 1 0 1 2)%nat as (v & m & Hv & Hm & Hout); [lia..|].
    exists v, m. split_and!; [exact Hv|exact Hm|exact Hout].
Defined.


Lemma failed_mask_fetch_aborts_witness :
  exists st',
    __call__ Z nonzero Z.mul cfg0 world_without_mask_volume box0 (fresh Z)
      = (Raise (ExternalError "mask volume"), st') /\
    trace st' = [EvReadVolume "gs://mask" 2 [(0, 1); (0, 1); (11, 13)]].
Proof.
  destruct (failed_mask_fetch_aborts nonzero Z.mul cfg0 world_without_mask_volume
              box0 (fresh Z)) as (e & st' & Hcall & Htrace & Hexn & _).
  - reflexivity.
  - intros m. discriminate.
  - exists st'. rewrite Hcall, (Hexn (ExternalError "mask volume") eq_refl).
    split; [reflexivity|]. rewrite Htrace. by vm_compute.
Defined.

Lemma read_image_covers_input_region_witness :
  exists st',
    _read_image Z cfg0 (world0 [[[1]]] true) st_image = (Ok tt, st') /\
    slices (image (self st')) = ((10, 14), (-1, 3), (-1, 3)).
Proof.
  destruct (read_image_covers_input_region cfg0 (world0 [[[1]]] true) st_image
              image0 1 1 1 (11, 13) (0, 2) (0, 2))
    as (st' & Hrun & _ & _ & Hslices).
  - reflexivity.
  - reflexivity.
  - reflexivity.
  - split; [reflexivity|]. repeat constructor.
  - vm_compute. lia.
  - vm_compute. lia.
  - vm_compute. discriminate.
  - exists st'. split; [exact Hrun | exact Hslices].
Defined.

End MoreSampleRuns.
